(** * A shallow embedding of the load balancer's dispatch engine

    Source: [lb/main.go]; the sample servers file is the one of the README.
    The embedded functions keep their Go names: [selectServer], [ServeHTTP],
    [setupReversProxies], [healthCheck], [main].

    - [int64] values are integers of [Z] with the two's-complement wrap-around
      of [atomic.AddInt64] written out ([wrap64]).
    - [float64] values are [spec_float] at precision 53 and maximal exponent
      1024, the IEEE 754 binary64 format; the conversion [float64(x)] of an
      [int64] rounds to nearest, ties to even.
    - A [*Server] that points into [lb.Servers] is the index of the element.
    - A handler is a state-passing computation over the balancer that
      returns or panics; handlers and monitor cycles of a run are taken one
      after the other. *)

From Stdlib Require Import ZArith Bool String.
From Stdlib Require Import Floats.SpecFloat.
From stdpp Require Import base tactics option list.

Local Open Scope Z_scope.

(** ** Machine integers *)

Module Int64.

Definition min_int : Z := - 2 ^ 63.
Definition max_int : Z := 2 ^ 63 - 1.

Definition in_range (z : Z) : Prop := min_int <= z <= max_int.

Definition in_rangeb (z : Z) : bool := (min_int <=? z) && (z <=? max_int).

(** Two's-complement reduction of an integer to 64 bits. *)
Definition wrap64 (z : Z) : Z := (z + 2 ^ 63) mod 2 ^ 64 - 2 ^ 63.

(** [atomic.AddInt64(&x, delta)]: the new value of [x]. *)
Definition AddInt64 (x delta : Z) : Z := wrap64 (x + delta).

End Int64.

(** ** Binary64 floating point *)

Module Float64.

Definition float64 : Type := spec_float.

Definition prec : Z := 53.
Definition emax : Z := 1024.

(** The conversion [float64(x)] of an [int64]. *)
Definition of_int64 (z : Z) : float64 := binary_normalize prec emax z 0 false.

(** The operator [/] on [float64]. *)
Definition div (x y : float64) : float64 := SFdiv prec emax x y.

(** The constant [1.0]. *)
Definition one : float64 := S754_finite false 4503599627370496 (-52).

(** The operators [<] and [>=] on [float64]; both are false when an
    operand is NaN. *)
Definition lt (x y : float64) : bool := SFltb x y.
Definition ge (x y : float64) : bool := SFleb y x.

Definition is_nan (x : float64) : bool :=
  match x with S754_nan => true | _ => false end.

End Float64.

Import Float64.

(** ** The rounding of [float64], spelled out on integers

    These functions say what the shifts and the rounding of [SpecFloat] do
    to the mantissa of an integer; the lemmas on the conversion are stated
    with them. *)

(** The record after [k] shifts of the exact mantissa [M]. *)
Definition shifted (M k : Z) : shr_record :=
  {| shr_m := M / 2 ^ k;
     shr_r := Z.testbit M (k - 1);
     shr_s := negb (M mod 2 ^ Z.max 0 (k - 1) =? 0) |}.

(** The mantissa [M] shifted by [k] bits and rounded to nearest, ties to
    even. *)
Definition round_shifted (M k : Z) : Z :=
  round_nearest_even (M / 2 ^ k) (loc_of_shr_record (shifted M k)).

(** The mantissa and the exponent of the conversion of a positive integer. *)
Definition mantissa_exponent (z : Z) : Z * Z :=
  let d := Zdigits2 z in
  if d <=? 53 then (z * 2 ^ (53 - d), d - 53)
  else
    let m1 := round_shifted z (d - 53) in
    if m1 =? 2 ^ 53 then (2 ^ 52, d - 52) else (m1, d - 53).


(** ** The data model *)

(** The target a reverse proxy was built for: [url.Parse] gives [nil] with an
    error for an address it cannot parse, and the proxy is built all the
    same. *)
Record httputil_ReverseProxy := { proxy_target : option string }.

Record Server := {
  Id : Z;
  MaximumActiveConnections : Z;
  CurrentActiveConnections : Z;
  Status : bool;
  URL : string;
  ReverseProxy : option httputil_ReverseProxy
}.

Record LoadBalancer := {
  Servers : list Server;
  TotalActiveConnections : Z;
  TotalRequests : Z
}.

(** ** [selectServer] *)

(** [float64(CurrentActiveConnections) / float64(MaximumActiveConnections)] *)
Definition load (s : Server) : float64 :=
  div (of_int64 (CurrentActiveConnections s)) (of_int64 (MaximumActiveConnections s)).

(** The test [!Status.Load() || currentLoad >= 1.0] that makes the loop
    [continue]. *)
Definition skipped (s : Server) : bool :=
  negb (Status s) || ge (load s) one.

(** One iteration of the loop body at index [i], where [lb.Servers[i]] is [s].
    [optimalServer] is [nil] ([None]) or points to an earlier element, kept
    here with the element it points to. *)
Definition selectServer_body (i : nat) (s : Server)
    (optimalServer : option (nat * Server)) : option (nat * Server) :=
  let currentLoad := load s in
  if skipped s then optimalServer
  else
    match optimalServer with
    | None => Some (i, s)
    | Some (j, o) =>
        let optimalLoad := load o in
        if lt currentLoad optimalLoad then Some (i, s) else Some (j, o)
    end.

(** The loop [for i := 0; i < len(lb.Servers); i++], entered at index [i]
    with the elements [rest] still to visit. *)
Fixpoint selectServer_loop (i : nat) (rest : list Server)
    (optimalServer : option (nat * Server)) : option (nat * Server) :=
  match rest with
  | [] => optimalServer
  | s :: rest' => selectServer_loop (S i) rest' (selectServer_body i s optimalServer)
  end.

Definition selectServer (lb : LoadBalancer) : option nat :=
  fst <$> selectServer_loop 0%nat (Servers lb) None.

(** What the loop knows of [optimalServer] after it visited [pre]: it is
    [nil] when every visited entry was skipped; it points to a visited entry
    that was not skipped and that no visited entry beats. *)
Definition selected (pre : list Server) (acc : option (nat * Server)) : Prop :=
  match acc with
  | None => forall k s, pre !! k = Some s -> skipped s = true
  | Some (j, o) =>
      pre !! j = Some o /\ skipped o = false /\
      forall k s, pre !! k = Some s -> skipped s = false -> lt (load s) (load o) = false
  end.


(** ** Handlers as state-passing computations

    The handler and the monitor act on the balancer through single atomic
    operations.  A computation takes the balancer and the events so far and
    gives them back; it either returns or panics.  A deferred call runs when
    the rest of the function body has returned and also when it has
    panicked. *)

(** What the reverse proxy did with a request: it relayed the backend's
    answer, or it could not reach the backend and answered 502 itself, or it
    aborted the handler with [panic(http.ErrAbortHandler)]. *)
Inductive forwarding :=
  | Relayed (status : Z)
  | BadGateway
  | Aborted.

Inductive event :=
  | AddTotalRequests (delta : Z)
  | AddCurrentActiveConnections (i : nat) (delta : Z)
  | AddTotalActiveConnections (delta : Z)
  | StoreStatus (i : nat) (b : bool)
  | HttpError (code : Z)
  | ProxyServeHTTP (i : nat) (f : forwarding).

Record world := { balancer : LoadBalancer; trace : list event }.

Inductive completion (A : Type) :=
  | Returned (a : A)
  | Panicked.
Arguments Returned {A} a.
Arguments Panicked {A}.

Definition Go (A : Type) : Type := world -> completion A * world.

#[export] Instance Go_ret : MRet Go := fun A a w => (Returned a, w).

#[export] Instance Go_bind : MBind Go := fun A B k m w =>
  match m w with
  | (Returned a, w') => k a w'
  | (Panicked, w') => (Panicked, w')
  end.

(** [defer deferred; body] *)
Definition defer {A : Type} (deferred : Go unit) (body : Go A) : Go A := fun w =>
  let '(c, w1) := body w in
  match deferred w1 with
  | (Returned _, w2) => (c, w2)
  | (Panicked, w2) => (Panicked, w2)
  end.

Definition emit (e : event) (f : LoadBalancer -> LoadBalancer) : Go unit := fun w =>
  (Returned tt, {| balancer := f (balancer w); trace := trace w ++ [e] |}).

Definition set_CurrentActiveConnections (v : Z) (s : Server) : Server :=
  {| Id := Id s;
     MaximumActiveConnections := MaximumActiveConnections s;
     CurrentActiveConnections := v;
     Status := Status s;
     URL := URL s;
     ReverseProxy := ReverseProxy s |}.

Definition set_Status (b : bool) (s : Server) : Server :=
  {| Id := Id s;
     MaximumActiveConnections := MaximumActiveConnections s;
     CurrentActiveConnections := CurrentActiveConnections s;
     Status := b;
     URL := URL s;
     ReverseProxy := ReverseProxy s |}.

Definition set_ReverseProxy (p : option httputil_ReverseProxy) (s : Server) : Server :=
  {| Id := Id s;
     MaximumActiveConnections := MaximumActiveConnections s;
     CurrentActiveConnections := CurrentActiveConnections s;
     Status := Status s;
     URL := URL s;
     ReverseProxy := p |}.

Definition with_Servers (f : list Server -> list Server) (lb : LoadBalancer) : LoadBalancer :=
  {| Servers := f (Servers lb);
     TotalActiveConnections := TotalActiveConnections lb;
     TotalRequests := TotalRequests lb |}.

(** [atomic.AddInt64(&lb.TotalRequests, delta)] *)
Definition atomic_AddInt64_TotalRequests (delta : Z) : Go unit :=
  emit (AddTotalRequests delta) (fun lb =>
    {| Servers := Servers lb;
       TotalActiveConnections := TotalActiveConnections lb;
       TotalRequests := Int64.AddInt64 (TotalRequests lb) delta |}).

(** [atomic.AddInt64(&lb.TotalActiveConnections, delta)] *)
Definition atomic_AddInt64_TotalActiveConnections (delta : Z) : Go unit :=
  emit (AddTotalActiveConnections delta) (fun lb =>
    {| Servers := Servers lb;
       TotalActiveConnections := Int64.AddInt64 (TotalActiveConnections lb) delta;
       TotalRequests := TotalRequests lb |}).

(** [atomic.AddInt64(&server.CurrentActiveConnections, delta)], where
    [server] points to [lb.Servers[i]]. *)
Definition atomic_AddInt64_CurrentActiveConnections (i : nat) (delta : Z) : Go unit :=
  emit (AddCurrentActiveConnections i delta)
    (with_Servers (alter (fun s =>
       set_CurrentActiveConnections (Int64.AddInt64 (CurrentActiveConnections s) delta) s) i)).

(** [serv.Status.Store(b)], where [serv] points to [lb.Servers[i]]. *)
Definition Status_Store (i : nat) (b : bool) : Go unit :=
  emit (StoreStatus i b) (with_Servers (alter (set_Status b) i)).

(** [http.Error(w, msg, code)] *)
Definition http_Error (code : Z) : Go unit := emit (HttpError code) id.

Definition StatusServiceUnavailable : Z := 503.

(** [server.ReverseProxy.ServeHTTP(w, r)], where [server] points to
    [lb.Servers[i]]: the call dereferences the proxy and its target (a nil
    pointer panics), exchanges bytes with the backend and touches no field of
    the balancer. *)
Definition ReverseProxy_ServeHTTP (i : nat) (f : forwarding) : Go unit := fun w =>
  match Servers (balancer w) !! i with
  | Some {| ReverseProxy := Some {| proxy_target := Some _ |} |} =>
      let w' := {| balancer := balancer w; trace := trace w ++ [ProxyServeHTTP i f] |} in
      match f with
      | Aborted => (Panicked, w')
      | _ => (Returned tt, w')
      end
  | _ => (Panicked, w)
  end.

(** [lb.selectServer()], called on the balancer as it is at that moment. *)
Definition call_selectServer : Go (option nat) := fun w =>
  (Returned (selectServer (balancer w)), w).

Definition ServeHTTP (f : forwarding) : Go unit :=
  atomic_AddInt64_TotalRequests 1 ;;
  server ← call_selectServer ;
  match server with
  | None => http_Error StatusServiceUnavailable
  | Some i =>
      atomic_AddInt64_CurrentActiveConnections i 1 ;;
      atomic_AddInt64_TotalActiveConnections 1 ;;
      defer
        (atomic_AddInt64_CurrentActiveConnections i (-1) ;;
         atomic_AddInt64_TotalActiveConnections (-1))
        (ReverseProxy_ServeHTTP i f)
  end.

(** ** The health monitor *)

(** The result [resp, err] of [client.Get(serv.URL + "/health")] with the
    client's timeout of five seconds: an error (no connection, timeout, ...)
    or a response with its status code. *)
Inductive get_result :=
  | GetError
  | GetResponse (StatusCode : Z).

(** [newStatus] as the probe computes it. *)
Definition newStatus (r : get_result) : bool :=
  match r with
  | GetResponse StatusCode => StatusCode =? 200
  | GetError => false
  end.

(** The body of the goroutine started for [&lb.Servers[i]]. *)
Definition healthCheck_probe (i : nat) (r : get_result) : Go unit :=
  Status_Store i (newStatus r).

(** The probes of the servers from index [i] on; each goroutine writes the
    flag of its own server only, so the order of the writes does not matter
    to the resulting balancer. *)
Fixpoint healthCheck_probes (i n : nat) (results : nat -> get_result) : Go unit :=
  match n with
  | O => mret tt
  | S n' => healthCheck_probe i (results i) ;; healthCheck_probes (S i) n' results
  end.

(** One turn of the monitor's [for] loop: a probe for every server, then the
    wait for all of them ([wg.Wait()]). *)
Definition healthCheck_cycle (results : nat -> get_result) : Go unit := fun w =>
  healthCheck_probes 0 (length (Servers (balancer w))) results w.

(** ** Startup *)

(** The servers file, as far as its JSON members have the kinds the README
    gives them: numbers without fraction for the integer fields, a boolean
    for [Status], a string for [URL]; every member may be absent. *)
Record ServerJSON := {
  json_Id : option Z;
  json_MaximumActiveConnections : option Z;
  json_CurrentActiveConnections : option Z;
  json_Status : option bool;
  json_URL : option string
}.

Record LoadBalancerJSON := {
  json_Servers : option (list ServerJSON);
  json_TotalActiveConnections : option Z;
  json_TotalRequests : option Z
}.

(** A number member stored into an [int] or [int64] field: absent leaves the
    zero value, a number outside the 64-bit range is an error. *)
Definition decode_int64 (m : option Z) : option Z :=
  match m with
  | None => Some 0
  | Some z => if Int64.in_rangeb z then Some z else None
  end.

(** A boolean member stored into the [Status] field.  The field's type is
    [atomic.Bool], a struct without exported fields and without an
    [UnmarshalJSON] method, and [encoding/json] stores a JSON boolean only
    into a [bool] or an empty interface: a declared boolean is an
    [UnmarshalTypeError], an absent member leaves the zero value [false]. *)
Definition decode_Status (m : option bool) : option bool :=
  match m with
  | None => Some false
  | Some _ => None
  end.

Definition decode_Server (j : ServerJSON) : option Server :=
  id_ ← decode_int64 (json_Id j) ;
  maximum ← decode_int64 (json_MaximumActiveConnections j) ;
  current ← decode_int64 (json_CurrentActiveConnections j) ;
  status ← decode_Status (json_Status j) ;
  Some {| Id := id_;
          MaximumActiveConnections := maximum;
          CurrentActiveConnections := current;
          Status := status;
          URL := default EmptyString (json_URL j);
          ReverseProxy := None |}.

(** [json.Unmarshal(serversInfoFile, &lb)] on such a document: [None] when it
    returns an error. *)
Definition json_Unmarshal (j : LoadBalancerJSON) : option LoadBalancer :=
  servers ← mapM decode_Server (default [] (json_Servers j)) ;
  active ← decode_int64 (json_TotalActiveConnections j) ;
  requests ← decode_int64 (json_TotalRequests j) ;
  Some {| Servers := servers;
          TotalActiveConnections := active;
          TotalRequests := requests |}.

(** What [os.ReadFile] gives for the path of the [-servers] flag. *)
Inductive file_contents :=
  | NotJSON
  | Document (j : LoadBalancerJSON).

Record environment := {
  servers_file : option file_contents;   (* [None]: the file cannot be read *)
  url_Parse : string -> option string;   (* [None]: [nil] and an error *)
  listen_error : bool                    (* [ListenAndServeTLS] fails *)
}.

(** [httputil.NewSingleHostReverseProxy(serverURL)] keeps the target and does
    not look into it (Go 1.20 and later; the target is used when a request
    is rewritten). *)
Definition NewSingleHostReverseProxy (serverURL : option string) : httputil_ReverseProxy :=
  {| proxy_target := serverURL |}.

Definition setupReversProxies (parse : string -> option string) (lb : LoadBalancer) : LoadBalancer :=
  with_Servers (map (fun s =>
    let serverURL := parse (URL s) in
    set_ReverseProxy (Some (NewSingleHostReverseProxy serverURL)) s)) lb.

Inductive startup :=
  | Exited                       (* [main] printed an error and returned or exited *)
  | Serving (lb : LoadBalancer). (* the listener and the monitor run on [lb] *)

Definition main (env : environment) : startup :=
  match servers_file env with
  | None => Exited
  | Some NotJSON => Exited
  | Some (Document j) =>
      match json_Unmarshal j with
      | None => Exited
      | Some lb =>
          let lb := setupReversProxies (url_Parse env) lb in
          if listen_error env then Exited else Serving lb
      end
  end.

(** ** Runs of the dispatcher *)

Inductive action :=
  | Request (f : forwarding)
  | MonitorCycle (results : nat -> get_result).

(** A handler that panics is recovered by the HTTP server, which goes on
    serving. *)
Definition perform (a : action) (w : world) : world :=
  match a with
  | Request f => snd (ServeHTTP f w)
  | MonitorCycle results => snd (healthCheck_cycle results w)
  end.

Definition run (actions : list action) (w : world) : world :=
  foldl (fun w a => perform a w) w actions.

Definition start (lb : LoadBalancer) : world := {| balancer := lb; trace := [] |}.

(** ** Well-formed balancers: every [int64] field holds a 64-bit value *)

Definition wf_Server (s : Server) : Prop :=
  Int64.in_range (MaximumActiveConnections s) /\
  Int64.in_range (CurrentActiveConnections s).

Definition wf_LoadBalancer (lb : LoadBalancer) : Prop :=
  Forall wf_Server (Servers lb) /\
  Int64.in_range (TotalActiveConnections lb) /\
  Int64.in_range (TotalRequests lb).

(** ** Notions of the specification *)

(** A qualifying entry: healthy, and normalized load below 1.0. *)
Definition qualifying (s : Server) : bool := Status s && lt (load s) one.

(** An entry that is unhealthy, or at or over capacity (normalized load at
    least 1.0). *)
Definition unavailable (s : Server) : bool := negb (Status s) || ge (load s) one.

(** The selector returns only entries that are healthy and strictly below
    capacity. *)
Definition returns_below_capacity (lb : LoadBalancer) : Prop :=
  forall i s, selectServer lb = Some i -> Servers lb !! i = Some s ->
    Status s = true /\ ge (load s) one = false /\ lt (load s) one = true.




(** The status codes of the class "successful". *)
Definition is_success_status (code : Z) : bool := (200 <=? code) && (code <? 300).

(** The probe completed within the timeout and reported a success status. *)
Definition completed_with_success (r : get_result) : bool :=
  match r with
  | GetResponse StatusCode => is_success_status StatusCode
  | GetError => false
  end.

(** After the probe of entry [i] with result [r], the entry is healthy
    exactly when the probe completed with a success status. *)
Definition marks_healthy_on_success (i : nat) (r : get_result) (w : world) : Prop :=
  forall s, Servers (balancer (snd (healthCheck_probe i r w))) !! i = Some s ->
    (Status s = true <-> completed_with_success r = true).




(** The balancer starts with the flag of every backend as the servers file
    declares it. *)
Definition starts_with_declared_status (env : environment) : Prop :=
  forall j servers, servers_file env = Some (Document j) -> json_Servers j = Some servers ->
    exists lb, main env = Serving lb /\
      Forall2 (fun d s => json_Status d = Some (Status s)) servers (Servers lb).

(** No action makes the counter of requests smaller. *)
Definition TotalRequests_never_decreases (w : world) : Prop :=
  forall a, TotalRequests (balancer w) <= TotalRequests (balancer (perform a w)).


Definition on_TotalRequests (e : event) : bool :=
  match e with
  | AddTotalRequests _ => true
  | _ => false
  end.

Definition is_Request (a : action) : bool :=
  match a with
  | Request _ => true
  | MonitorCycle _ => false
  end.

Definition count_Requests (actions : list action) : nat :=
  length (List.filter is_Request actions).

(** ** Sample balancers *)

Definition backend (id_ maximum current : Z) (status : bool) (address : string) : Server :=
  {| Id := id_;
     MaximumActiveConnections := maximum;
     CurrentActiveConnections := current;
     Status := status;
     URL := address;
     ReverseProxy := Some (NewSingleHostReverseProxy (Some address)) |}.

Definition registry (servers : list Server) : LoadBalancer :=
  {| Servers := servers; TotalActiveConnections := 0; TotalRequests := 0 |}.

(** The two backends of the README, idle, and as scenarios A to C of the
    specification have them. *)
Definition scenario_A : LoadBalancer :=
  registry [backend 1 5 0 true "http://localhost:9001";
            backend 2 3 0 true "http://localhost:9002"].

Definition scenario_B : LoadBalancer :=
  registry [backend 1 5 5 true "http://localhost:9001";
            backend 2 3 2 true "http://localhost:9002"].

Definition scenario_C : LoadBalancer :=
  registry [backend 1 5 0 false "http://localhost:9001";
            backend 2 3 0 false "http://localhost:9002"].

(** A healthy backend of capacity zero, alone and before an idle backend. *)
Definition zero_capacity : Server := backend 1 0 0 true "http://localhost:9001".

Definition zero_capacity_only : LoadBalancer := registry [zero_capacity].


(** The servers file of the README. *)
Definition README_servers : LoadBalancerJSON :=
  {| json_Servers := Some
       [{| json_Id := Some 1;
           json_MaximumActiveConnections := Some 5;
           json_CurrentActiveConnections := None;
           json_Status := Some true;
           json_URL := Some "http://localhost:9001"%string |};
        {| json_Id := Some 2;
           json_MaximumActiveConnections := Some 3;
           json_CurrentActiveConnections := None;
           json_Status := Some true;
           json_URL := Some "http://localhost:9002"%string |}];
     json_TotalActiveConnections := None;
     json_TotalRequests := None |}.

(** An environment in which the file is read, every address parses and the
    listener starts. *)
Definition serving_environment (j : LoadBalancerJSON) : environment :=
  {| servers_file := Some (Document j);
     url_Parse := fun address => Some address;
     listen_error := false |}.



(** A servers file without [Status] members, with one backend of capacity
    zero. *)
Definition unchecked_servers : LoadBalancerJSON :=
  {| json_Servers := Some
       [{| json_Id := Some 1;
           json_MaximumActiveConnections := Some 0;
           json_CurrentActiveConnections := None;
           json_Status := None;
           json_URL := Some "http://localhost:9001"%string |}];
     json_TotalActiveConnections := None;
     json_TotalRequests := None |}.

(** A balancer whose counter of requests holds the largest [int64], as the
    servers file may set it. *)
Definition saturated : LoadBalancer :=
  {| Servers := []; TotalActiveConnections := 0; TotalRequests := Int64.max_int |}.

(** ** The two halves of the handler, and requests in flight

    [ServeHTTP] up to the call of the proxy, and the function it defers.
    Between the two a request is in flight at the backend chosen for it. *)

(** [ServeHTTP] from its first statement to the registration of the deferred
    function: the backend chosen, if any. *)
Definition ServeHTTP_enter : Go (option nat) :=
  atomic_AddInt64_TotalRequests 1 ;;
  server ← call_selectServer ;
  match server with
  | None => http_Error StatusServiceUnavailable ;; mret None
  | Some i =>
      atomic_AddInt64_CurrentActiveConnections i 1 ;;
      atomic_AddInt64_TotalActiveConnections 1 ;;
      mret (Some i)
  end.

(** The deferred function of [ServeHTTP], for the backend [i]. *)
Definition ServeHTTP_leave (i : nat) : Go unit :=
  atomic_AddInt64_CurrentActiveConnections i (-1) ;;
  atomic_AddInt64_TotalActiveConnections (-1).

(** The balancer with the backends of the requests in flight, the latest
    first. *)
Record traffic := { board : world; in_flight : list nat }.

(** A request arrives and runs up to its proxy call; the request at position
    [k] of those in flight ends; the monitor does a cycle. *)
Inductive movement :=
  | Arrive
  | Leave (k : nat)
  | Probe (results : nat -> get_result).

Definition move (mv : movement) (t : traffic) : traffic :=
  match mv with
  | Arrive =>
      match ServeHTTP_enter (board t) with
      | (Returned (Some i), w) => {| board := w; in_flight := i :: in_flight t |}
      | (_, w) => {| board := w; in_flight := in_flight t |}
      end
  | Leave k =>
      match in_flight t !! k with
      | Some i =>
          {| board := snd (ServeHTTP_leave i (board t));
             in_flight := delete k (in_flight t) |}
      | None => t
      end
  | Probe results =>
      {| board := snd (healthCheck_cycle results (board t)); in_flight := in_flight t |}
  end.

Definition moves (mvs : list movement) (t : traffic) : traffic :=
  foldl (fun t mv => move mv t) t mvs.

(** A balancer without requests in flight. *)
Definition idle (lb : LoadBalancer) : traffic :=
  {| board := start lb; in_flight := [] |}.

(** The number of requests in flight at the backend [i]. *)
Definition in_flight_at (i : nat) (t : traffic) : Z :=
  Z.of_nat (count_occ Nat.eq_dec (in_flight t) i).

(** Every backend has a positive capacity that is a 64-bit value, and no
    connection. *)
Definition fresh (lb : LoadBalancer) : Prop :=
  Forall (fun s => CurrentActiveConnections s = 0 /\
                   0 < MaximumActiveConnections s <= Int64.max_int) (Servers lb) /\
  TotalActiveConnections lb = 0.

(** The counters agree with the requests in flight, and no backend holds
    more of them than its capacity. *)
Definition accounted (t : traffic) : Prop :=
  (forall i s, Servers (balancer (board t)) !! i = Some s ->
     CurrentActiveConnections s = in_flight_at i t /\
     0 <= CurrentActiveConnections s <= MaximumActiveConnections s /\
     0 < MaximumActiveConnections s <= Int64.max_int) /\
  (forall i, i ∈ in_flight t -> (i < length (Servers (balancer (board t))))%nat) /\
  TotalActiveConnections (balancer (board t)) =
    Int64.wrap64 (Z.of_nat (length (in_flight t))).

(** ** What a run leaves alone *)

(** The results of the last monitor cycle of a run, if it has one. *)
Definition last_cycle (actions : list action) : option (nat -> get_result) :=
  foldl (fun last a =>
           match a with
           | MonitorCycle results => Some results
           | Request _ => last
           end) None actions.

(** Two servers that the selector cannot tell apart: same flag, same
    connections, same capacity. *)
Definition same_load (s t : Server) : Prop :=
  Status s = Status t /\
  CurrentActiveConnections s = CurrentActiveConnections t /\
  MaximumActiveConnections s = MaximumActiveConnections t.

(** Two servers that differ in their flag at most. *)
Definition same_but_Status (s t : Server) : Prop :=
  Id s = Id t /\
  MaximumActiveConnections s = MaximumActiveConnections t /\
  CurrentActiveConnections s = CurrentActiveConnections t /\
  URL s = URL t /\
  ReverseProxy s = ReverseProxy t.

(** ** The pause of the monitor *)

(** [time.Second], in nanoseconds. *)
Definition time_Second : Z := 1000000000.

(** The pause [time.Duration(n) * time.Second] for the value [n] of the flag
    [-health-timeout], a multiplication of [int64] values. *)
Definition healthPause (healthPauseNum : Z) : Z :=
  Int64.wrap64 (healthPauseNum * time_Second).

(** [healthCheck] up to its loop: [time.NewTicker(pause)] panics for a pause
    that is not positive, and the panic of the goroutine ends the process. *)
Definition healthCheck_ticker (pause : Z) : completion unit :=
  if pause <=? 0 then Panicked else Returned tt.

(** * Properties *)

(** ** The order of [float64] *)

Section Float64Order.

Implicit Types x y z : float64.

Ltac order_cases :=
  repeat match goal with
  | b : bool |- _ => destruct b
  end;
  simpl in *; try congruence;
  change (Pos.compare_cont Eq) with Pos.compare in *;
  repeat match goal with
  | H : context [(?a ?= ?b)%Z] |- _ => destruct (Z.compare_spec a b); simpl in H
  | |- context [(?a ?= ?b)%Z] => destruct (Z.compare_spec a b); simpl
  | H : context [(?a ?= ?b)%positive] |- _ => destruct (Pos.compare_spec a b); simpl in H
  | |- context [(?a ?= ?b)%positive] => destruct (Pos.compare_spec a b); simpl
  end;
  try congruence; try lia.

Lemma SFcompare_Lt_trans x y z :
  SFcompare x y = Some Lt -> SFcompare y z = Some Lt -> SFcompare x z = Some Lt.
Proof.
  destruct x as [sx|sx| |sx mx ex], y as [sy|sy| |sy my ey], z as [sz|sz| |sz mz ez];
    simpl; try congruence; intros; order_cases.
Qed.


Lemma SFcompare_swap x y : SFcompare y x = option_map CompOpp (SFcompare x y).
Proof.
  destruct x as [sx|sx| |sx mx ex], y as [sy|sy| |sy my ey];
    simpl; try congruence; order_cases.
Qed.

Lemma SFcompare_None x y :
  SFcompare x y = None <-> is_nan x = true \/ is_nan y = true.
Proof.
  destruct x, y; simpl; intuition congruence.
Qed.

Lemma lt_Some x y : lt x y = true <-> SFcompare x y = Some Lt.
Proof.
  unfold lt, SFltb. destruct (SFcompare x y) as [[]|]; intuition congruence.
Qed.

Lemma lt_not_nan x y : lt x y = true -> is_nan x = false /\ is_nan y = false.
Proof.
  rewrite lt_Some. destruct x, y; simpl; intuition congruence.
Qed.

Lemma lt_irrefl x : lt x x = false.
Proof.
  unfold lt, SFltb. pose proof (SFcompare_swap x x) as H.
  destruct (SFcompare x x) as [[]|]; simpl in H; congruence.
Qed.

Lemma lt_trans x y z : lt x y = true -> lt y z = true -> lt x z = true.
Proof. rewrite !lt_Some. apply SFcompare_Lt_trans. Qed.



Lemma not_ge_lt x y :
  is_nan x = false -> is_nan y = false -> ge x y = false -> lt x y = true.
Proof.
  intros Hx Hy. unfold ge, lt, SFltb, SFleb. rewrite (SFcompare_swap x y).
  destruct (SFcompare x y) as [[]|] eqn:Hc; simpl; try congruence.
  apply SFcompare_None in Hc. destruct Hc; congruence.
Qed.

Lemma lt_not_ge x y : lt x y = true -> ge x y = false.
Proof.
  unfold ge, lt, SFltb, SFleb. rewrite (SFcompare_swap x y).
  destruct (SFcompare x y) as [[]|]; simpl; congruence.
Qed.

Lemma lt_SFleb x y : lt x y = true -> SFleb x y = true.
Proof.
  unfold lt, SFltb, SFleb. destruct (SFcompare x y) as [[]|]; congruence.
Qed.


End Float64Order.

(** ** The conversion of integers and the quotient *)

Section Float64Conversion.

Lemma shr_1_m mrs : 0 <= shr_m mrs -> shr_m (shr_1 mrs) = shr_m mrs / 2.
Proof.
  destruct mrs as [m r s]. cbn [shr_m]. intros Hm.
  destruct m as [|[p|p|]|p]; cbn [shr_1 shr_m]; try lia; try reflexivity.
  - apply (Z.div_unique (Zpos p~1) 2 (Zpos p) 1); lia.
  - apply (Z.div_unique (Zpos p~0) 2 (Zpos p) 0); lia.
Qed.

Lemma iter_pos_shr_1_m p : forall mrs,
  0 <= shr_m mrs -> shr_m (SpecFloat.iter_pos shr_1 p mrs) = shr_m mrs / 2 ^ Zpos p.
Proof.
  assert (Hnonneg : forall mrs, 0 <= shr_m mrs -> 0 <= shr_m (shr_1 mrs)).
  { intros mrs Hm. rewrite shr_1_m by done. apply Z.div_pos; lia. }
  induction p as [p IH|p IH|]; intros mrs Hm; simpl.
  - rewrite IH, IH, shr_1_m by (try rewrite IH; try apply Z.div_pos; auto; lia).
    rewrite !Z.div_div by lia. f_equal.
    rewrite Pos2Z.inj_xI, <- !Z.pow_add_r by lia. rewrite <- Z.pow_succ_r by lia. f_equal. lia.
  - rewrite IH, IH by (try rewrite IH; try apply Z.div_pos; auto; lia).
    rewrite !Z.div_div by lia. f_equal.
    rewrite Pos2Z.inj_xO, <- !Z.pow_add_r by lia. f_equal. lia.
  - rewrite shr_1_m by done. done.
Qed.

Lemma digits2_pos_bounds p :
  2 ^ (Zpos (digits2_pos p) - 1) <= Zpos p < 2 ^ Zpos (digits2_pos p).
Proof.
  induction p as [p IH|p IH|]; cbn [digits2_pos]; [| |simpl; lia].
  - rewrite Pos2Z.inj_succ. pose proof (Pos2Z.inj_xI p) as Hp. revert Hp.
    generalize (Zpos p~1). intros p2 Hp.
    generalize dependent (Zpos (digits2_pos p)). intros d IH.
    assert (0 < d).
    { destruct (Z.lt_ge_cases 0 d); [done|]. rewrite (Z.pow_neg_r 2 (d - 1)) in IH by lia.
      destruct (Z.eq_dec d 0) as [->|]; [simpl in IH; lia|].
      rewrite Z.pow_neg_r in IH by lia. lia. }
    replace (Z.succ d - 1) with (Z.succ (d - 1)) by lia.
    rewrite !Z.pow_succ_r by lia.
    revert IH. generalize (2 ^ (d - 1)) (2 ^ d). lia.
  - rewrite Pos2Z.inj_succ. pose proof (Pos2Z.inj_xO p) as Hp. revert Hp.
    generalize (Zpos p~0). intros p2 Hp.
    generalize dependent (Zpos (digits2_pos p)). intros d IH.
    assert (0 < d).
    { destruct (Z.lt_ge_cases 0 d); [done|]. rewrite (Z.pow_neg_r 2 (d - 1)) in IH by lia.
      destruct (Z.eq_dec d 0) as [->|]; [simpl in IH; lia|].
      rewrite Z.pow_neg_r in IH by lia. lia. }
    replace (Z.succ d - 1) with (Z.succ (d - 1)) by lia.
    rewrite !Z.pow_succ_r by lia.
    revert IH. generalize (2 ^ (d - 1)) (2 ^ d). lia.
Qed.

Lemma digits2_pos_unique p k :
  2 ^ (k - 1) <= Zpos p < 2 ^ k -> Zpos (digits2_pos p) = k.
Proof.
  intros [Hlo Hhi]. pose proof (digits2_pos_bounds p) as [Hlo' Hhi'].
  assert (Hk : 0 < k).
  { destruct (Z.lt_ge_cases 0 k); [done|]. 
    assert (2 ^ k <= 1); [|lia].
    destruct (Z.eq_dec k 0) as [->|]; [simpl; lia|]. rewrite Z.pow_neg_r; lia. }
  destruct (Z.lt_trichotomy (Zpos (digits2_pos p)) k) as [Hlt|[Heq|Hgt]]; [|done|].
  - assert (2 ^ Zpos (digits2_pos p) <= 2 ^ (k - 1)) by (apply Z.pow_le_mono_r; lia). lia.
  - assert (2 ^ k <= 2 ^ (Zpos (digits2_pos p) - 1)) by (apply Z.pow_le_mono_r; lia). lia.
Qed.

Lemma shr_record_of_loc_m m l : shr_m (shr_record_of_loc m l) = m.
Proof. by destruct l as [|[]]. Qed.

(** The mantissa and the exponent after [shr_fexp]. *)
Lemma shr_fexp_spec m e l :
  0 <= m ->
  let n := fexp prec emax (Zdigits2 m + e) - e in
  shr_m (fst (shr_fexp prec emax m e l)) = (if 0 <? n then m / 2 ^ n else m) /\
  snd (shr_fexp prec emax m e l) = (if 0 <? n then e + n else e) /\
  0 <= shr_m (fst (shr_fexp prec emax m e l)).
Proof.
  intros Hm n. unfold shr_fexp, shr. fold n.
  destruct n as [|p|p]; simpl; rewrite ?shr_record_of_loc_m; try done.
  rewrite iter_pos_shr_1_m; rewrite shr_record_of_loc_m; [|done..].
  split_and!; [done..|]. apply Z.div_pos; [done|]. by apply Z.pow_pos_nonneg.
Qed.

Lemma round_nearest_even_bounds m l :
  m <= round_nearest_even m l <= m + 1.
Proof. destruct l as [|[]]; simpl; try destruct (Z.even m); lia. Qed.

(** Rounding a mantissa that is not negative never gives NaN. *)
Lemma binary_round_aux_not_nan s m e l :
  0 <= m -> is_nan (binary_round_aux prec emax s m e l) = false.
Proof.
  intros Hm. unfold binary_round_aux.
  pose proof (shr_fexp_spec m e l Hm) as (_ & _ & Hm1).
  destruct (shr_fexp prec emax m e l) as [mrs' e']. simpl in Hm1.
  pose proof (round_nearest_even_bounds (shr_m mrs') (loc_of_shr_record mrs')) as Hr.
  set (m1 := round_nearest_even (shr_m mrs') (loc_of_shr_record mrs')) in *.
  assert (Hm1pos : 0 <= m1) by lia.
  pose proof (shr_fexp_spec m1 e' loc_Exact Hm1pos) as (_ & _ & Hm2).
  destruct (shr_fexp prec emax m1 e' loc_Exact) as [mrs'' e'']. simpl in Hm2.
  destruct (shr_m mrs''); [done | by destruct (_ <=? _) | lia].
Qed.

Lemma fexp_unfold x : fexp prec emax x = Z.max (x - 53) (-1074).
Proof. reflexivity. Qed.

(** A mantissa of at most 53 bits is kept as it is. *)
Lemma binary_round_aux_exact s m e :
  Zpos (digits2_pos m) <= 53 -> -1074 <= e <= 971 ->
  binary_round_aux prec emax s (Zpos m) e loc_Exact = S754_finite s m e.
Proof.
  intros Hd He. unfold binary_round_aux.
  assert (Hshr : shr_fexp prec emax (Zpos m) e loc_Exact =
                 ({| shr_m := Zpos m; shr_r := false; shr_s := false |}, e)).
  { unfold shr_fexp, shr. rewrite fexp_unfold. cbn [Zdigits2 shr_record_of_loc].
    destruct (Z.max (Zpos (digits2_pos m) + e - 53) (-1074) - e) eqn:Hn; [done| lia | done]. }
  rewrite Hshr. cbn [shr_m loc_of_shr_record round_nearest_even]. rewrite Hshr.
  cbn [shr_m]. unfold prec, emax.
  destruct (e <=? 1024 - 53) eqn:Hle; [done|]. apply Z.leb_gt in Hle. lia.
Qed.

(** A longer mantissa is shifted to 53 bits and rounded. *)
Lemma binary_round_aux_long s m e l :
  53 < Zpos (digits2_pos m) -> 0 <= e -> e + Zpos (digits2_pos m) - 52 <= 971 ->
  exists m' e',
    binary_round_aux prec emax s (Zpos m) e l = S754_finite s m' e' /\
    2 ^ 52 <= Zpos m' < 2 ^ 53 /\
    (e' = e + Zpos (digits2_pos m) - 53 \/ e' = e + Zpos (digits2_pos m) - 52).
Proof.
  intros Hd He Hmax. unfold binary_round_aux.
  pose proof (digits2_pos_bounds m) as [Hlo Hhi].
  set (d := Zpos (digits2_pos m)) in *.
  pose proof (shr_fexp_spec (Zpos m) e l ltac:(lia)) as (Hm1 & He1 & _).
  cbv zeta in Hm1, He1. rewrite fexp_unfold in Hm1, He1. cbn [Zdigits2] in Hm1, He1.
  fold d in Hm1, He1.
  replace (Z.max (d + e - 53) (-1074) - e) with (d - 53) in Hm1, He1 by lia.
  destruct (0 <? d - 53) eqn:Hpos; [|apply Z.ltb_ge in Hpos; lia].
  destruct (shr_fexp prec emax (Zpos m) e l) as [mrs' e']. cbn [fst snd] in Hm1, He1.
  assert (Hm0 : 2 ^ 52 <= shr_m mrs' < 2 ^ 53).
  { rewrite Hm1. assert (Hpow : 0 < 2 ^ (d - 53)) by (apply Z.pow_pos_nonneg; lia).
    split.
    - apply Z.div_le_lower_bound; [done|].
      rewrite Z.mul_comm, <- Z.pow_add_r by lia. by replace (52 + (d - 53)) with (d - 1) by lia.
    - apply Z.div_lt_upper_bound; [done|].
      rewrite <- Z.pow_add_r by lia. by replace (d - 53 + 53) with d by lia. }
  pose proof (round_nearest_even_bounds (shr_m mrs') (loc_of_shr_record mrs')) as Hr.
  set (m1 := round_nearest_even (shr_m mrs') (loc_of_shr_record mrs')) in *.
  assert (Hm1b : 2 ^ 52 <= m1 <= 2 ^ 53) by lia.
  destruct m1 as [|q|q] eqn:Hq; [simpl in Hm1b; lia | | simpl in Hm1b; lia].
  pose proof (shr_fexp_spec (Zpos q) e' loc_Exact ltac:(lia)) as (Hm2 & He2 & _).
  cbv zeta in Hm2, He2. rewrite fexp_unfold in Hm2, He2. cbn [Zdigits2] in Hm2, He2.
  destruct (shr_fexp prec emax (Zpos q) e' loc_Exact) as [mrs'' e'']. cbn [fst snd] in Hm2, He2.
  destruct (Z.eq_dec (Zpos q) (2 ^ 53)) as [Heq|Hne].
  - assert (Hdq : Zpos (digits2_pos q) = 54).
    { apply digits2_pos_unique. rewrite Heq. simpl. lia. }
    rewrite Hdq in Hm2, He2.
    replace (Z.max (54 + e' - 53) (-1074) - e') with 1 in Hm2, He2 by lia.
    simpl in Hm2, He2. rewrite Heq in Hm2. simpl in Hm2. rewrite Hm2.
    unfold prec, emax. destruct (e'' <=? 1024 - 53) eqn:Hle; [|apply Z.leb_gt in Hle; lia].
    eexists _, _. split; [reflexivity|]. split; [simpl; lia | lia].
  - assert (Hdq : Zpos (digits2_pos q) = 53).
    { apply digits2_pos_unique. simpl. simpl in Hm1b. lia. }
    rewrite Hdq in Hm2, He2.
    replace (Z.max (53 + e' - 53) (-1074) - e') with 0 in Hm2, He2 by lia.
    simpl in Hm2, He2. rewrite Hm2.
    unfold prec, emax. destruct (e'' <=? 1024 - 53) eqn:Hle; [|apply Z.leb_gt in Hle; lia].
    eexists _, _. split; [reflexivity|]. split; [simpl in *; lia | lia].
Qed.

(** The conversion of a 64-bit integer other than zero is a finite number
    other than zero, of the sign of the integer. *)
Lemma binary_round_int64 s mx :
  Zpos mx <= 2 ^ 63 ->
  exists m e, binary_round prec emax s mx 0 = S754_finite s m e.
Proof.
  intros Hmx. unfold binary_round, shl_align. rewrite fexp_unfold.
  pose proof (digits2_pos_bounds mx) as [Hlo Hhi].
  set (d := Zpos (digits2_pos mx)) in *.
  assert (Hd : 1 <= d <= 64).
  { split; [lia|]. destruct (Z.le_gt_cases d 64); [done|].
    assert (2 ^ 64 <= 2 ^ (d - 1)) by (apply Z.pow_le_mono_r; lia). simpl in *. lia. }
  destruct (Z.max (d + 0 - 53) (-1074) - 0) as [|k|k] eqn:Hk.
  - rewrite binary_round_aux_exact; [eauto | fold d; lia | lia].
  - destruct (Z.le_gt_cases d 53).
    + rewrite binary_round_aux_exact; [eauto | fold d; lia | lia].
    + destruct (binary_round_aux_long s mx 0 loc_Exact) as (m & e & -> & _);
        [fold d; lia.. | eauto].
  - assert (Hshift : Zpos (Pos.iter xO mx k) = 2 ^ Zpos k * Zpos mx).
    { change (Pos.iter xO mx k) with (shift_pos k mx).
      by rewrite shift_pos_correct, Z.pow_pos_fold. }
    assert (Hkd : Zpos k = 53 - d) by lia.
    rewrite binary_round_aux_exact; [eauto | | lia].
    rewrite (digits2_pos_unique _ 53); [lia|]. rewrite Hshift, Hkd.
    assert (Hpow : 0 < 2 ^ (53 - d)) by (apply Z.pow_pos_nonneg; lia).
    split.
    + replace 52 with ((53 - d) + (d - 1)) by lia. replace (53 - 1) with ((53 - d) + (d - 1)) by lia.
      rewrite Z.pow_add_r by lia. apply Z.mul_le_mono_nonneg_l; lia.
    + replace (2 ^ 53) with (2 ^ (53 - d) * 2 ^ d).
      * apply Z.mul_lt_mono_pos_l; lia.
      * rewrite <- Z.pow_add_r by lia. f_equal. lia.
Qed.

Lemma of_int64_finite z :
  z <> 0 -> Int64.in_range z -> exists s m e, of_int64 z = S754_finite s m e.
Proof.
  unfold Int64.in_range, Int64.min_int, Int64.max_int, of_int64, binary_normalize.
  intros Hz Hrange. destruct z as [|mx|mx]; [done | |].
  - destruct (binary_round_int64 false mx) as (m & e & ->); [lia | eauto].
  - destruct (binary_round_int64 true mx) as (m & e & ->); [lia | eauto].
Qed.

(** The quotient of two finite numbers other than zero is a number. *)
Lemma div_finite_not_nan s1 m1 e1 s2 m2 e2 :
  is_nan (div (S754_finite s1 m1 e1) (S754_finite s2 m2 e2)) = false.
Proof.
  unfold div, SFdiv, SFdiv_core_binary.
  set (m' := match _ with Z0 => Zpos m1 | Zpos _ => Z.shiftl (Zpos m1) _ | Zneg _ => 0 end).
  assert (Hm' : 0 <= m').
  { subst m'. destruct (_ - _ - _); [lia | | lia]. apply Z.shiftl_nonneg. lia. }
  pose proof (Z.div_pos m' (Zpos m2) Hm' ltac:(lia)) as Hq. unfold Z.div in Hq.
  destruct (Z.div_eucl m' (Zpos m2)) as [q r]. by apply binary_round_aux_not_nan.
Qed.

(** The load of a server is not a number exactly when the server has
    capacity zero and no active connection. *)
Lemma load_nan s :
  wf_Server s ->
  is_nan (load s) = true <->
  CurrentActiveConnections s = 0 /\ MaximumActiveConnections s = 0.
Proof.
  intros [Hmax Hcur]. unfold load.
  destruct (Z.eq_dec (CurrentActiveConnections s) 0) as [Ha|Ha],
    (Z.eq_dec (MaximumActiveConnections s) 0) as [Hc|Hc].
  - rewrite Ha, Hc. done.
  - destruct (of_int64_finite _ Hc Hmax) as (s2 & m2 & e2 & ->). rewrite Ha. simpl.
    split; [done | tauto].
  - destruct (of_int64_finite _ Ha Hcur) as (s1 & m1 & e1 & ->). rewrite Hc. simpl.
    split; [done | tauto].
  - destruct (of_int64_finite _ Ha Hcur) as (s1 & m1 & e1 & ->).
    destruct (of_int64_finite _ Hc Hmax) as (s2 & m2 & e2 & ->).
    rewrite div_finite_not_nan. split; [done | tauto].
Qed.

(** The result of rounding a mantissa of at least 53 bits, from the record
    that the first shift leaves. *)
Lemma binary_round_aux_normal s m e l :
  let d := Zpos (digits2_pos m) in
  let mrs := fst (shr_fexp prec emax (Zpos m) e l) in
  let m1 := round_nearest_even (shr_m mrs) (loc_of_shr_record mrs) in
  53 <= d -> -1074 <= e + d - 53 -> e + d - 52 <= 971 ->
  shr_m mrs = Zpos m / 2 ^ (d - 53) /\
  2 ^ 52 <= m1 <= 2 ^ 53 /\
  binary_round_aux prec emax s (Zpos m) e l =
    if m1 =? 2 ^ 53 then S754_finite s (2 ^ 52)%positive (e + d - 52)
    else S754_finite s (Z.to_pos m1) (e + d - 53).
Proof.
  intros d mrs m1 Hd Hmin Hmax. unfold binary_round_aux.
  pose proof (digits2_pos_bounds m) as [Hlo Hhi]. fold d in Hlo, Hhi.
  pose proof (shr_fexp_spec (Zpos m) e l ltac:(lia)) as (Hm1 & He1 & _).
  cbv zeta in Hm1, He1. rewrite fexp_unfold in Hm1, He1. cbn [Zdigits2] in Hm1, He1.
  fold d mrs in Hm1, He1.
  replace (Z.max (d + e - 53) (-1074) - e) with (d - 53) in Hm1, He1 by lia.
  assert (Hm0 : shr_m mrs = Zpos m / 2 ^ (d - 53)).
  { rewrite Hm1. destruct (0 <? d - 53) eqn:Hpos; [done|].
    apply Z.ltb_ge in Hpos. replace (d - 53) with 0 by lia. by rewrite Z.div_1_r. }
  assert (He0 : snd (shr_fexp prec emax (Zpos m) e l) = e + d - 53).
  { rewrite He1. destruct (0 <? d - 53) eqn:Hpos; [lia|]. apply Z.ltb_ge in Hpos. lia. }
  assert (Hm0b : 2 ^ 52 <= shr_m mrs < 2 ^ 53).
  { rewrite Hm0. assert (Hpow : 0 < 2 ^ (d - 53)) by (apply Z.pow_pos_nonneg; lia).
    split.
    - apply Z.div_le_lower_bound; [done|].
      rewrite Z.mul_comm, <- Z.pow_add_r by lia. by replace (52 + (d - 53)) with (d - 1) by lia.
    - apply Z.div_lt_upper_bound; [done|].
      rewrite <- Z.pow_add_r by lia. by replace (d - 53 + 53) with d by lia. }
  pose proof (round_nearest_even_bounds (shr_m mrs) (loc_of_shr_record mrs)) as Hr.
  fold m1 in Hr. assert (Hm1b : 2 ^ 52 <= m1 <= 2 ^ 53) by lia.
  split; [done|]. split; [done|]. clear Hm1 He1.
  subst mrs. destruct (shr_fexp prec emax (Zpos m) e l) as [mrs' e']. cbn [fst snd] in *.
  subst e'. cbv beta iota. fold m1.
  destruct m1 as [|q|q] eqn:Hq; [simpl in Hm1b; lia | | simpl in Hm1b; lia].
  pose proof (shr_fexp_spec (Zpos q) (e + d - 53) loc_Exact ltac:(lia)) as (Hm2 & He2 & _).
  cbv zeta in Hm2, He2. rewrite fexp_unfold in Hm2, He2. cbn [Zdigits2] in Hm2, He2.
  destruct (shr_fexp prec emax (Zpos q) (e + d - 53) loc_Exact) as [mrs'' e''].
  cbn [fst snd] in Hm2, He2. cbv beta iota. 
  destruct (Z.eqb_spec (Zpos q) (2 ^ 53)) as [Heq|Hne].
  - assert (Hdq : Zpos (digits2_pos q) = 54).
    { apply digits2_pos_unique. rewrite Heq. simpl. lia. }
    rewrite Hdq in Hm2, He2.
    replace (Z.max (54 + (e + d - 53) - 53) (-1074) - (e + d - 53)) with 1 in Hm2, He2 by lia.
    simpl in Hm2, He2. rewrite Heq in Hm2.
    change (2 ^ 53 / 2 ^ 1) with (Zpos (2 ^ 52)%positive) in Hm2. rewrite Hm2.
    unfold prec, emax. destruct (e'' <=? 1024 - 53) eqn:Hle; [|apply Z.leb_gt in Hle; lia].
    f_equal. lia.
  - assert (Hdq : Zpos (digits2_pos q) = 53).
    { apply digits2_pos_unique. simpl. simpl in Hm1b. lia. }
    rewrite Hdq in Hm2, He2.
    replace (Z.max (53 + (e + d - 53) - 53) (-1074) - (e + d - 53)) with 0 in Hm2, He2 by lia.
    simpl in Hm2, He2. rewrite Hm2.
    unfold prec, emax. destruct (e'' <=? 1024 - 53) eqn:Hle; [|apply Z.leb_gt in Hle; lia].
    rewrite He2. done.
Qed.

Lemma shr_1_spec m r s :
  0 <= m ->
  shr_1 {| shr_m := m; shr_r := r; shr_s := s |} =
    {| shr_m := m / 2; shr_r := Z.odd m; shr_s := r || s |}.
Proof.
  intros Hm. destruct m as [|[p|p|]|p]; cbn [shr_1]; try lia; try reflexivity.
  - f_equal. apply (Z.div_unique (Zpos p~1) 2 (Zpos p) 1); lia.
  - f_equal. apply (Z.div_unique (Zpos p~0) 2 (Zpos p) 0); lia.
Qed.

(** The bits of [M] below bit [k]: the bit [k - 1] and the bits under it. *)
Lemma low_bits M k :
  0 <= M -> 1 <= k ->
  exists b low,
    M = M / 2 ^ k * (2 * 2 ^ (k - 1)) + 2 ^ (k - 1) * b + low /\
    0 <= low < 2 ^ (k - 1) /\ (b = 0 \/ b = 1) /\
    Z.testbit M (k - 1) = (b =? 1) /\
    M mod 2 ^ (k - 1) = low /\
    M mod 2 ^ k = 2 ^ (k - 1) * b + low.
Proof.
  intros HM Hk. assert (Hpow : 0 < 2 ^ (k - 1)) by (apply Z.pow_pos_nonneg; lia).
  assert (Hk2 : 2 ^ k = 2 ^ (k - 1) * 2).
  { replace k with (Z.succ (k - 1)) at 1 by lia. rewrite Z.pow_succ_r by lia. lia. }
  exists ((M / 2 ^ (k - 1)) mod 2), (M mod 2 ^ (k - 1)).
  pose proof (Z.mod_pos_bound M (2 ^ (k - 1)) Hpow) as Hlow.
  pose proof (Z.mod_pos_bound (M / 2 ^ (k - 1)) 2 ltac:(lia)) as Hb.
  assert (Hmod : M mod 2 ^ k = 2 ^ (k - 1) * ((M / 2 ^ (k - 1)) mod 2) + M mod 2 ^ (k - 1)).
  { rewrite Hk2, Z.rem_mul_r by lia. lia. }
  split; [|split; [done|split; [lia|split; [|split; done]]]].
  - pose proof (Z.div_mod M (2 ^ k) ltac:(lia)) as Hdiv. rewrite Hmod in Hdiv. lia.
  - rewrite Z.testbit_odd, Z.shiftr_div_pow2 by lia.
    rewrite (Zmod_odd (M / 2 ^ (k - 1))). by destruct (Z.odd _).
Qed.

Lemma shr_1_shifted M k :
  0 <= M -> 0 <= k -> shr_1 (shifted M k) = shifted M (k + 1).
Proof.
  intros HM Hk. unfold shifted.
  assert (Hpow : 0 < 2 ^ k) by (apply Z.pow_pos_nonneg; lia).
  rewrite shr_1_spec by (apply Z.div_pos; lia). f_equal.
  - rewrite Z.div_div by lia. f_equal. rewrite Z.pow_add_r by lia. lia.
  - replace (k + 1 - 1) with k by lia.
    by rewrite Z.testbit_odd, Z.shiftr_div_pow2.
  - replace (Z.max 0 (k + 1 - 1)) with k by lia.
    destruct (Z.eq_dec k 0) as [->|Hk0].
    + simpl. by rewrite !Z.mod_1_r.
    + replace (Z.max 0 (k - 1)) with (k - 1) by lia.
      destruct (low_bits M k HM ltac:(lia)) as (b & low & _ & Hlow & Hb & -> & -> & ->).
      assert (0 < 2 ^ (k - 1)) by (apply Z.pow_pos_nonneg; lia).
      destruct Hb as [-> | ->]; simpl.
      * rewrite Z.mul_0_r. done.
      * destruct (Z.eqb_spec (2 ^ (k - 1) * 1 + low) 0); [lia | done].
Qed.

Lemma iter_pos_shifted p : forall M k,
  0 <= M -> 0 <= k ->
  SpecFloat.iter_pos shr_1 p (shifted M k) = shifted M (k + Zpos p).
Proof.
  induction p as [p IH|p IH|]; intros M k HM Hk; cbn [SpecFloat.iter_pos].
  - rewrite shr_1_shifted, !IH by lia. f_equal. lia.
  - rewrite !IH by lia. f_equal. lia.
  - by apply shr_1_shifted.
Qed.

Lemma shifted_0 M : shifted M 0 = {| shr_m := M; shr_r := false; shr_s := false |}.
Proof. unfold shifted. simpl. by rewrite Z.div_1_r, Z.mod_1_r. Qed.

(** Rounding is monotone. *)
Lemma round_shifted_mono c a k :
  0 <= c <= a -> 0 <= k -> round_shifted c k <= round_shifted a k.
Proof.
  intros Hca Hk. unfold round_shifted.
  assert (Hpow : 0 < 2 ^ k) by (apply Z.pow_pos_nonneg; lia).
  pose proof (Z.div_le_mono c a (2 ^ k) Hpow ltac:(lia)) as Hq.
  pose proof (round_nearest_even_bounds (c / 2 ^ k) (loc_of_shr_record (shifted c k))) as Hc.
  pose proof (round_nearest_even_bounds (a / 2 ^ k) (loc_of_shr_record (shifted a k))) as Ha.
  destruct (Z.eq_dec (c / 2 ^ k) (a / 2 ^ k)) as [Heq|Hne]; [|lia].
  destruct (Z.eq_dec k 0) as [->|Hk0].
  { rewrite !shifted_0. simpl. lia. }
  destruct (low_bits c k ltac:(lia) ltac:(lia)) as (bc & lc & Hdc & Hlc & Hbc & Hrc & Hsc & _).
  destruct (low_bits a k ltac:(lia) ltac:(lia)) as (ba & la & Hda & Hla & Hba & Hra & Hsa & _).
  unfold shifted. cbn [loc_of_shr_record].
  replace (Z.max 0 (k - 1)) with (k - 1) by lia.
  rewrite Hrc, Hra, Hsc, Hsa, <- Heq. rewrite <- Heq in Hda.
  assert (Hrem : 2 ^ (k - 1) * bc + lc <= 2 ^ (k - 1) * ba + la) by lia.
  clear Hdc Hda Hc Ha Hq.
  destruct Hbc as [-> | ->], Hba as [-> | ->]; simpl;
    destruct (Z.eqb_spec lc 0), (Z.eqb_spec la 0); simpl;
    try destruct (Z.even (c / 2 ^ k)); lia.
Qed.

Lemma Zdigits2_bounds z : 0 < z -> 2 ^ (Zdigits2 z - 1) <= z < 2 ^ Zdigits2 z.
Proof. destruct z as [|p|p]; [lia | | lia]. intros _. apply digits2_pos_bounds. Qed.

Lemma Zdigits2_pos z : 0 < z -> 0 < Zdigits2 z.
Proof. destruct z; simpl; lia. Qed.

Lemma Zdigits2_mono c a : 0 < c <= a -> Zdigits2 c <= Zdigits2 a.
Proof.
  intros Hca. pose proof (Zdigits2_bounds c ltac:(lia)) as [Hc _].
  pose proof (Zdigits2_bounds a ltac:(lia)) as [_ Ha].
  pose proof (Zdigits2_pos a ltac:(lia)).
  destruct (Z.le_gt_cases (Zdigits2 c) (Zdigits2 a)); [done|].
  assert (2 ^ Zdigits2 a <= 2 ^ (Zdigits2 c - 1)) by (apply Z.pow_le_mono_r; lia). lia.
Qed.

Lemma round_shifted_bounds z :
  0 < z -> 53 <= Zdigits2 z ->
  2 ^ 52 <= round_shifted z (Zdigits2 z - 53) <= 2 ^ 53.
Proof.
  intros Hz Hd. unfold round_shifted.
  pose proof (Zdigits2_bounds z Hz) as [Hlo Hhi]. set (d := Zdigits2 z) in *.
  pose proof (round_nearest_even_bounds (z / 2 ^ (d - 53))
                (loc_of_shr_record (shifted z (d - 53)))) as Hr.
  assert (Hpow : 0 < 2 ^ (d - 53)) by (apply Z.pow_pos_nonneg; lia).
  assert (2 ^ 52 <= z / 2 ^ (d - 53) < 2 ^ 53); [|lia].
  split.
  - apply Z.div_le_lower_bound; [done|].
    rewrite Z.mul_comm, <- Z.pow_add_r by lia. by replace (52 + (d - 53)) with (d - 1) by lia.
  - apply Z.div_lt_upper_bound; [done|].
    rewrite <- Z.pow_add_r by lia. by replace (d - 53 + 53) with d by lia.
Qed.

Lemma mantissa_exponent_bounds z :
  0 < z ->
  2 ^ 52 <= (mantissa_exponent z).1 < 2 ^ 53 /\
  Zdigits2 z - 53 <= (mantissa_exponent z).2 <= Zdigits2 z - 52.
Proof.
  intros Hz. unfold mantissa_exponent.
  pose proof (Zdigits2_bounds z Hz) as [Hlo Hhi].
  pose proof (Zdigits2_pos z Hz) as Hd. set (d := Zdigits2 z) in *.
  destruct (Z.leb_spec d 53) as [Hle|Hgt]; cbn [fst snd].
  - split; [|lia]. assert (Hpow : 0 < 2 ^ (53 - d)) by (apply Z.pow_pos_nonneg; lia).
    split.
    + replace 52 with ((d - 1) + (53 - d)) by lia.
      rewrite Z.pow_add_r by lia. apply Z.mul_le_mono_nonneg_r; lia.
    + replace (2 ^ 53) with (2 ^ d * 2 ^ (53 - d)).
      * apply Z.mul_lt_mono_pos_r; lia.
      * rewrite <- Z.pow_add_r by lia. f_equal. lia.
  - pose proof (round_shifted_bounds z Hz ltac:(fold d; lia)) as Hr. fold d in Hr.
    destruct (Z.eqb_spec (round_shifted z (d - 53)) (2 ^ 53)); cbn [fst snd].
    + split; [simpl; lia | lia].
    + split; [lia | lia].
Qed.

(** The conversion is monotone on the positive integers: a greater integer
    has a greater exponent, or the same exponent and no smaller mantissa. *)
Lemma mantissa_exponent_mono c a :
  0 < c <= a ->
  (mantissa_exponent c).2 < (mantissa_exponent a).2 \/
  ((mantissa_exponent c).2 = (mantissa_exponent a).2 /\
   (mantissa_exponent c).1 <= (mantissa_exponent a).1).
Proof.
  intros Hca.
  pose proof (Zdigits2_mono c a Hca) as Hd.
  pose proof (mantissa_exponent_bounds c ltac:(lia)) as [Hmc Hec].
  pose proof (mantissa_exponent_bounds a ltac:(lia)) as [Hma Hea].
  destruct (Z.eq_dec (Zdigits2 c) (Zdigits2 a)) as [Heq|Hne].
  - unfold mantissa_exponent in *. rewrite Heq in *. set (d := Zdigits2 a) in *.
    destruct (Z.leb_spec d 53) as [Hle|Hgt]; cbn [fst snd] in *.
    + right. split; [done|]. apply Z.mul_le_mono_nonneg_r; [|lia].
      apply Z.pow_nonneg. lia.
    + pose proof (round_shifted_mono c a (d - 53) ltac:(lia) ltac:(lia)) as Hmono.
      pose proof (round_shifted_bounds a ltac:(lia) ltac:(fold d; lia)) as Hra. fold d in Hra.
      destruct (Z.eqb_spec (round_shifted c (d - 53)) (2 ^ 53)),
        (Z.eqb_spec (round_shifted a (d - 53)) (2 ^ 53)); cbn [fst snd] in *; lia.
  - destruct (Z.lt_ge_cases (mantissa_exponent c).2 (mantissa_exponent a).2); [by left|].
    right. split; [lia|].
    assert (Hc2 : (mantissa_exponent c).2 = Zdigits2 c - 52) by lia.
    unfold mantissa_exponent in Hc2 |- *.
    destruct (Zdigits2 c <=? 53); cbn [fst snd] in *; [lia|].
    destruct (round_shifted c (Zdigits2 c - 53) =? 2 ^ 53); cbn [fst snd] in *; [|lia].
    fold (mantissa_exponent a). lia.
Qed.

(** The conversion of a positive 64-bit integer. *)
Lemma of_int64_pos z :
  0 < z <= 2 ^ 63 ->
  of_int64 z =
    S754_finite false (Z.to_pos (mantissa_exponent z).1) (mantissa_exponent z).2.
Proof.
  intros Hz. destruct z as [|mx|mx]; [lia | | lia].
  unfold of_int64, binary_normalize, binary_round, shl_align, mantissa_exponent.
  rewrite fexp_unfold. cbn [Zdigits2].
  pose proof (digits2_pos_bounds mx) as [Hlo Hhi].
  set (d := Zpos (digits2_pos mx)) in *.
  assert (Hd : 1 <= d <= 64).
  { split; [lia|]. destruct (Z.le_gt_cases d 64); [done|].
    assert (2 ^ 64 <= 2 ^ (d - 1)) by (apply Z.pow_le_mono_r; lia). simpl in *. lia. }
  destruct (Z.max (d + 0 - 53) (-1074) - 0) as [|k|k] eqn:Hk.
  - rewrite binary_round_aux_exact by (try fold d; lia).
    destruct (Z.leb_spec d 53); [|lia]. cbn [fst snd].
    replace (53 - d) with 0 by lia. rewrite Z.mul_1_r. simpl. f_equal. lia.
  - destruct (Z.leb_spec d 53); [lia|].
    pose proof (binary_round_aux_normal false mx 0 loc_Exact) as Hround.
    cbv zeta in Hround. fold d in Hround.
    destruct Hround as (_ & _ & ->); [lia..|].
    assert (Hmrs : fst (shr_fexp prec emax (Zpos mx) 0 loc_Exact) = shifted (Zpos mx) (d - 53)).
    { unfold shr_fexp, shr. rewrite fexp_unfold. cbn [Zdigits2 shr_record_of_loc]. fold d.
      rewrite Hk. cbn [fst]. rewrite <- shifted_0, iter_pos_shifted by lia. f_equal. lia. }
    rewrite Hmrs. change (shr_m (shifted (Zpos mx) (d - 53))) with (Zpos mx / 2 ^ (d - 53)).
    fold (round_shifted (Zpos mx) (d - 53)).
    destruct (round_shifted (Zpos mx) (d - 53) =? 2 ^ 53); cbn [fst snd]; f_equal; lia.
  - destruct (Z.leb_spec d 53); [|lia]. cbn [fst snd].
    assert (Hshift : Zpos (Pos.iter xO mx k) = Zpos mx * 2 ^ (53 - d)).
    { change (Pos.iter xO mx k) with (shift_pos k mx).
      rewrite shift_pos_correct, Z.pow_pos_fold. replace (53 - d) with (Zpos k) by lia. lia. }
    rewrite <- Hshift. cbn [Z.to_pos].
    assert (Hmant : 2 ^ 52 <= Zpos (Pos.iter xO mx k) < 2 ^ 53).
    { rewrite Hshift. assert (Hpow : 0 < 2 ^ (53 - d)) by (apply Z.pow_pos_nonneg; lia).
      split.
      - replace 52 with ((d - 1) + (53 - d)) by lia.
        rewrite Z.pow_add_r by lia. apply Z.mul_le_mono_nonneg_r; lia.
      - replace (2 ^ 53) with (2 ^ d * 2 ^ (53 - d)).
        + apply Z.mul_lt_mono_pos_r; lia.
        + rewrite <- Z.pow_add_r by lia. f_equal. lia. }
    rewrite binary_round_aux_exact; [f_equal; lia | | lia].
    rewrite (digits2_pos_unique _ 53); [lia | done].
Qed.

(** The quotient of two positive normal numbers, the dividend not smaller
    than the divisor, is at least [1.0]. *)
Lemma div_ge_one ma ea mc ec :
  2 ^ 52 <= Zpos ma < 2 ^ 53 -> 2 ^ 52 <= Zpos mc < 2 ^ 53 ->
  -52 <= ec -> ea <= 11 ->
  ec < ea \/ (ec = ea /\ Zpos mc <= Zpos ma) ->
  ge (div (S754_finite false ma ea) (S754_finite false mc ec)) one = true.
Proof.
  intros Hma Hmc Hec Hea Hord.
  unfold div, SFdiv, SFdiv_core_binary. cbn [Zdigits2 xorb].
  rewrite (digits2_pos_unique ma 53), (digits2_pos_unique mc 53) by (simpl; lia).
  rewrite fexp_unfold.
  replace (Z.min (Z.max (53 + ea - (53 + ec) - 53) (-1074)) (ea - ec)) with (ea - ec - 53)
    by lia.
  replace (ea - ec - (ea - ec - 53)) with 53 by lia.
  rewrite Z.shiftl_mul_pow2 by lia.
  pose proof (Z.div_mod (Zpos ma * 2 ^ 53) (Zpos mc) ltac:(lia)) as Hdiv.
  pose proof (Z.mod_pos_bound (Zpos ma * 2 ^ 53) (Zpos mc) ltac:(lia)) as Hrem.
  unfold Z.div, Z.modulo in Hdiv, Hrem.
  destruct (Z.div_eucl (Zpos ma * 2 ^ 53) (Zpos mc)) as [q r].
  assert (Hq : 2 ^ 52 <= q < 2 ^ 54).
  { change (2 ^ 52) with 4503599627370496 in *. change (2 ^ 53) with 9007199254740992 in *.
    change (2 ^ 54) with 18014398509481984. nia. }
  assert (Hq53 : ec = ea -> 2 ^ 53 <= q).
  { intros ->. destruct Hord as [|[_ Hle]]; [lia|].
    change (2 ^ 52) with 4503599627370496 in *. change (2 ^ 53) with 9007199254740992 in *.
    nia. }
  destruct q as [|qp|qp]; [simpl in Hq; lia | | simpl in Hq; lia].
  pose proof (digits2_pos_bounds qp) as [Hdlo Hdhi].
  set (d := Zpos (digits2_pos qp)) in *.
  assert (Hd : 53 <= d <= 54).
  { split.
    - destruct (Z.le_gt_cases 53 d); [done|].
      assert (2 ^ d <= 2 ^ 52) by (apply Z.pow_le_mono_r; lia). lia.
    - destruct (Z.le_gt_cases d 54); [done|].
      assert (2 ^ 54 <= 2 ^ (d - 1)) by (apply Z.pow_le_mono_r; lia). lia. }
  assert (Hd54 : ec = ea -> d = 54).
  { intros Heq. specialize (Hq53 Heq). destruct (Z.eq_dec d 53) as [Hd53|]; [|lia].
    rewrite Hd53 in Hdhi. lia. }
  pose proof (binary_round_aux_normal false qp (ea - ec - 53)
                (new_location (Zpos mc) r)) as Hround.
  cbv zeta in Hround. fold d in Hround.
  destruct Hround as (_ & Hm1 & ->); [lia..|].
  set (m1 := round_nearest_even _ _) in *.
  unfold ge, SFleb, one.
  destruct (Z.eqb_spec m1 (2 ^ 53)) as [Hm1eq|Hm1ne]; cbn [SFcompare].
  - destruct (Z.compare_spec (-52) (ea - ec - 53 + d - 52)); [| done | lia].
    change (Pos.compare_cont Eq) with Pos.compare. by rewrite Pos.compare_refl.
  - destruct (Z.compare_spec (-52) (ea - ec - 53 + d - 53)); [| done | lia].
    change (Pos.compare_cont Eq) with Pos.compare.
    destruct (Pos.compare_spec 4503599627370496 (Z.to_pos m1)); [done | done |].
    assert (Zpos (Z.to_pos m1) = m1) by (apply Z2Pos.id; simpl in Hm1; lia).
    simpl in Hm1. lia.
Qed.

(** A server with a positive capacity and at least as many connections is
    skipped. *)
Lemma full_ge_one s :
  wf_Server s ->
  0 < MaximumActiveConnections s <= CurrentActiveConnections s ->
  ge (load s) one = true.
Proof.
  intros [Hmax Hcur] Hfull. unfold load.
  unfold Int64.in_range, Int64.min_int, Int64.max_int in Hmax, Hcur.
  set (a := CurrentActiveConnections s) in *. set (c := MaximumActiveConnections s) in *.
  rewrite (of_int64_pos a), (of_int64_pos c) by lia.
  pose proof (mantissa_exponent_bounds a ltac:(lia)) as [Hma Hea].
  pose proof (mantissa_exponent_bounds c ltac:(lia)) as [Hmc Hec].
  pose proof (mantissa_exponent_mono c a ltac:(lia)) as Hmono.
  pose proof (Zdigits2_pos c ltac:(lia)) as Hdc.
  pose proof (Zdigits2_bounds a ltac:(lia)) as [Hda _].
  assert (Zdigits2 a <= 63).
  { destruct (Z.le_gt_cases (Zdigits2 a) 63); [done|].
    assert (2 ^ 63 <= 2 ^ (Zdigits2 a - 1)) by (apply Z.pow_le_mono_r; lia). lia. }
  apply div_ge_one; rewrite ?Z2Pos.id by (simpl in *; lia); try done; lia.
Qed.

(** The quotient of two positive normal numbers, the dividend smaller than
    the divisor, is below [1.0]. *)
Lemma div_lt_one ma ea mc ec :
  2 ^ 52 <= Zpos ma < 2 ^ 53 -> 2 ^ 52 <= Zpos mc < 2 ^ 53 ->
  -52 <= ea -> ec <= 11 ->
  ea < ec \/ (ea = ec /\ Zpos ma < Zpos mc) ->
  lt (div (S754_finite false ma ea) (S754_finite false mc ec)) one = true.
Proof.
  intros Hma Hmc Hea Hec Hord.
  unfold div, SFdiv, SFdiv_core_binary. cbn [Zdigits2 xorb].
  rewrite (digits2_pos_unique ma 53), (digits2_pos_unique mc 53) by (simpl; lia).
  rewrite fexp_unfold.
  replace (Z.min (Z.max (53 + ea - (53 + ec) - 53) (-1074)) (ea - ec)) with (ea - ec - 53)
    by lia.
  replace (ea - ec - (ea - ec - 53)) with 53 by lia.
  rewrite Z.shiftl_mul_pow2 by lia.
  pose proof (Z.div_mod (Zpos ma * 2 ^ 53) (Zpos mc) ltac:(lia)) as Hdiv.
  pose proof (Z.mod_pos_bound (Zpos ma * 2 ^ 53) (Zpos mc) ltac:(lia)) as Hrem.
  unfold Z.div, Z.modulo in Hdiv, Hrem.
  destruct (Z.div_eucl (Zpos ma * 2 ^ 53) (Zpos mc)) as [q r].
  assert (Hq : 2 ^ 52 <= q <= 2 ^ 54 - 2).
  { change (2 ^ 52) with 4503599627370496 in *. change (2 ^ 53) with 9007199254740992 in *.
    change (2 ^ 54) with 18014398509481984. nia. }
  assert (Hq53 : ea = ec -> q <= 2 ^ 53 - 2).
  { intros ->. destruct Hord as [|[_ Hlt]]; [lia|].
    change (2 ^ 52) with 4503599627370496 in *. change (2 ^ 53) with 9007199254740992 in *.
    nia. }
  destruct q as [|qp|qp]; [simpl in Hq; lia | | simpl in Hq; lia].
  pose proof (digits2_pos_bounds qp) as [Hdlo Hdhi].
  set (d := Zpos (digits2_pos qp)) in *.
  assert (Hd : 53 <= d <= 54).
  { split.
    - destruct (Z.le_gt_cases 53 d); [done|].
      assert (2 ^ d <= 2 ^ 52) by (apply Z.pow_le_mono_r; lia). lia.
    - destruct (Z.le_gt_cases d 54); [done|].
      assert (2 ^ 54 <= 2 ^ (d - 1)) by (apply Z.pow_le_mono_r; lia).
      change (2 ^ 54) with 18014398509481984 in *. lia. }
  pose proof (binary_round_aux_normal false qp (ea - ec - 53)
                (new_location (Zpos mc) r)) as Hround.
  cbv zeta in Hround. fold d in Hround.
  destruct Hround as (Hm0 & Hm1 & ->); [lia..|].
  set (mrs := fst (shr_fexp prec emax (Zpos qp) (ea - ec - 53) (new_location (Zpos mc) r))) in *.
  pose proof (round_nearest_even_bounds (shr_m mrs) (loc_of_shr_record mrs)) as Hr.
  set (m1 := round_nearest_even (shr_m mrs) (loc_of_shr_record mrs)) in *.
  assert (Hno : d = 54 -> m1 < 2 ^ 53).
  { intros Hd54. rewrite Hd54 in Hm0. change (2 ^ (54 - 53)) with 2 in Hm0.
    destruct (Z.eq_dec (Zpos qp) (2 ^ 54 - 2)) as [Hqeq|Hqne].
    - assert (Hmrs : mrs = shr_1 (shr_record_of_loc (Zpos qp) (new_location (Zpos mc) r))).
      { subst mrs. unfold shr_fexp, shr. rewrite fexp_unfold. cbn [Zdigits2]. fold d.
        rewrite Hd54. replace (Z.max (54 + (ea - ec - 53) - 53) (-1074) - (ea - ec - 53))
          with 1 by lia. reflexivity. }
      subst m1. rewrite Hmrs, Hqeq.
      destruct (new_location (Zpos mc) r) as [|[]]; vm_compute; reflexivity.
    - assert (shr_m mrs <= 2 ^ 53 - 2); [|lia]. rewrite Hm0.
      assert (Zpos qp / 2 < 2 ^ 53 - 1); [|lia].
      apply Z.div_lt_upper_bound; [lia|].
      change (2 ^ 54) with 18014398509481984 in *.
      change (2 ^ 53) with 9007199254740992 in *. lia. }
  unfold lt, SFltb, one.
  destruct (Z.eqb_spec m1 (2 ^ 53)) as [Hm1eq|Hm1ne]; cbn [SFcompare].
  - assert (d = 53) by (destruct (Z.eq_dec d 54) as [H54|]; [specialize (Hno H54)|]; lia).
    assert (ea <> ec).
    { intros Heq. specialize (Hq53 Heq). subst m1.
      assert (Hsm : shr_m mrs = Zpos qp).
      { rewrite Hm0. replace (d - 53) with 0 by lia. by rewrite Z.div_1_r. }
      change (2 ^ 53) with 9007199254740992 in *. lia. }
    destruct (Z.compare_spec (ea - ec - 53 + d - 52) (-52)); [lia | done | lia].
  - destruct (Z.compare_spec (ea - ec - 53 + d - 53) (-52)); [| done |].
    + assert (d = 54) by lia. assert (ea = ec) by lia.
      specialize (Hq53 ltac:(done)). 
      assert (2 ^ 53 <= Zpos qp); [|lia].
      assert (Hp: 2 ^ (d - 1) = 2 ^ 53) by (f_equal; lia). lia.
    + assert (ea = ec /\ d = 54 \/ d = 54 /\ ea <> ec \/ d = 53) as Hcases by lia.
      exfalso. destruct Hord as [Hlt|[Heq _]]; [lia|].
      specialize (Hq53 Heq).
      assert (d = 53); [|lia].
      destruct (Z.eq_dec d 54) as [H54|]; [|lia].
      assert (Hp: 2 ^ (d - 1) = 2 ^ 53) by (f_equal; lia). lia.
Qed.

(** Below [2 ^ 53] the conversion is exact. *)
Lemma mantissa_exponent_exact z :
  0 < z < 2 ^ 53 ->
  Zdigits2 z <= 53 /\
  mantissa_exponent z = (z * 2 ^ (53 - Zdigits2 z), Zdigits2 z - 53).
Proof.
  intros Hz. pose proof (Zdigits2_bounds z ltac:(lia)) as [Hlo _].
  assert (Hd : Zdigits2 z <= 53).
  { destruct (Z.le_gt_cases (Zdigits2 z) 53); [done|].
    assert (2 ^ 53 <= 2 ^ (Zdigits2 z - 1)) by (apply Z.pow_le_mono_r; lia). lia. }
  split; [done|]. unfold mantissa_exponent.
  by destruct (Z.leb_spec (Zdigits2 z) 53); [|lia].
Qed.

(** A server with fewer connections than its capacity, the capacity below
    [2 ^ 53], has a load below [1.0]. *)
Lemma below_capacity_lt_one s :
  0 <= CurrentActiveConnections s < MaximumActiveConnections s ->
  MaximumActiveConnections s < 2 ^ 53 ->
  lt (load s) one = true.
Proof.
  intros Hbelow Hmax. unfold load.
  set (a := CurrentActiveConnections s) in *. set (c := MaximumActiveConnections s) in *.
  assert (H53 : 2 ^ 53 < 2 ^ 63) by (apply Z.pow_lt_mono_r; lia).
  rewrite (of_int64_pos c) by lia.
  destruct (Z.eq_dec a 0) as [->|Ha]; [reflexivity|].
  rewrite (of_int64_pos a) by lia.
  pose proof (mantissa_exponent_bounds a ltac:(lia)) as [Hma _].
  pose proof (mantissa_exponent_bounds c ltac:(lia)) as [Hmc _].
  destruct (mantissa_exponent_exact a ltac:(lia)) as [Hda Heqa].
  destruct (mantissa_exponent_exact c ltac:(lia)) as [Hdc Heqc].
  pose proof (Zdigits2_mono a c ltac:(lia)) as Hmono.
  pose proof (Zdigits2_pos a ltac:(lia)) as Hposa.
  rewrite Heqa, Heqc in *. cbn [fst snd] in *.
  apply div_lt_one; rewrite ?Z2Pos.id by lia; try done; try lia.
  destruct (Z.eq_dec (Zdigits2 a) (Zdigits2 c)) as [Heq|Hne]; [right | left; lia].
  split; [lia|]. rewrite Heq. apply Z.mul_lt_mono_pos_r; [|lia].
  apply Z.pow_pos_nonneg; lia.
Qed.

(** Within 53 bits the guard of the selector is the comparison of the
    integers: a server is skipped exactly when it is unhealthy or has at
    least as many connections as its capacity. *)
Lemma skipped_iff s :
  0 <= CurrentActiveConnections s < 2 ^ 53 ->
  0 < MaximumActiveConnections s < 2 ^ 53 ->
  skipped s = true <->
  Status s = false \/ MaximumActiveConnections s <= CurrentActiveConnections s.
Proof.
  intros Hcur Hmax.
  assert (H53 : 2 ^ 53 < 2 ^ 63) by (apply Z.pow_lt_mono_r; lia).
  assert (Hwf : wf_Server s).
  { unfold wf_Server, Int64.in_range, Int64.min_int, Int64.max_int. lia. }
  unfold skipped. rewrite orb_true_iff, negb_true_iff. split.
  - intros [Hs | Hge]; [by left | right].
    destruct (Z.le_gt_cases (MaximumActiveConnections s) (CurrentActiveConnections s));
      [done|].
    rewrite lt_not_ge in Hge; [done|]. apply below_capacity_lt_one; lia.
  - intros [Hs | Hfull]; [by left | right]. apply full_ge_one; [done | lia].
Qed.

Lemma qualifying_iff s :
  0 <= CurrentActiveConnections s < 2 ^ 53 ->
  0 < MaximumActiveConnections s < 2 ^ 53 ->
  qualifying s = true <->
  Status s = true /\ CurrentActiveConnections s < MaximumActiveConnections s.
Proof.
  intros Hcur Hmax. unfold qualifying. rewrite andb_true_iff. split.
  - intros [Hs Hlt]. split; [done|].
    destruct (Z.lt_ge_cases (CurrentActiveConnections s) (MaximumActiveConnections s));
      [done|].
    assert (Hskip : skipped s = true) by (apply skipped_iff; [done.. | by right]).
    unfold skipped in Hskip. rewrite Hs, (lt_not_ge _ _ Hlt) in Hskip. done.
  - intros [Hs Hlt]. split; [done|]. apply below_capacity_lt_one; lia.
Qed.

End Float64Conversion.

(** ** The selector *)

Section Selector.

Implicit Types (s o r : Server) (pre rest : list Server) (acc : option (nat * Server)).

Lemma selectServer_body_selected pre s acc :
  selected pre acc ->
  selected (pre ++ [s]) (selectServer_body (length pre) s acc).
Proof.
  unfold selectServer_body. intros Hacc.
  destruct (skipped s) eqn:Hs.
  - destruct acc as [[j o]|]; simpl in *.
    + destruct Hacc as (Hj & Ho & Hmin). split_and!; [|done|].
      * by apply lookup_app_l_Some.
      * intros k s' [[_ Hk]|[_ ->]]%lookup_snoc_Some Hs'; [eauto | congruence].
    + intros k s' [[_ Hk]|[_ ->]]%lookup_snoc_Some; [eauto | congruence].
  - destruct acc as [[j o]|]; simpl in *.
    + destruct Hacc as (Hj & Ho & Hmin).
      destruct (lt (load s) (load o)) eqn:Hlt; simpl.
      * split_and!; [by apply list_lookup_middle | done |].
        intros k s' [[_ Hk]|[_ ->]]%lookup_snoc_Some Hs'.
        -- destruct (lt (load s') (load s)) eqn:Hc; [|done].
           rewrite <- (Hmin k s' Hk Hs'). symmetry. by apply lt_trans with (load s).
        -- apply lt_irrefl.
      * split_and!; [by apply lookup_app_l_Some | done |].
        intros k s' [[_ Hk]|[_ ->]]%lookup_snoc_Some Hs'; eauto.
    + split_and!; [by apply list_lookup_middle | done |].
      intros k s' [[_ Hk]|[_ ->]]%lookup_snoc_Some Hs'.
      * rewrite (Hacc k s' Hk) in Hs'. discriminate.
      * apply lt_irrefl.
Qed.


Lemma selectServer_loop_selected rest : forall pre acc,
  selected pre acc ->
  selected (pre ++ rest) (selectServer_loop (length pre) rest acc).
Proof.
  induction rest as [|s rest IH]; intros pre acc Hacc; simpl.
  - by rewrite app_nil_r.
  - rewrite cons_middle, app_assoc.
    replace (S (length pre)) with (length (pre ++ [s])) by (rewrite length_app; simpl; lia).
    apply IH. by apply selectServer_body_selected.
Qed.


(** A pointer is returned exactly when the loop ends with one. *)
Lemma selectServer_Some lb i :
  selectServer lb = Some i <->
  exists s, selectServer_loop 0 (Servers lb) None = Some (i, s).
Proof.
  unfold selectServer. destruct (selectServer_loop 0 (Servers lb) None) as [[j o]|]; simpl.
  - split; [intros [= ->]; eauto | intros (s & [= -> _]); done].
  - split; [done | intros (s & [=])].
Qed.

Lemma selectServer_selected lb :
  selected (Servers lb) (selectServer_loop 0 (Servers lb) None).
Proof.
  apply (selectServer_loop_selected (Servers lb) []). intros k s. by rewrite lookup_nil.
Qed.

(** The selector reads the servers only. *)
Lemma selectServer_Servers lb lb' : Servers lb = Servers lb' -> selectServer lb = selectServer lb'.
Proof. unfold selectServer. by intros ->. Qed.

Lemma selectServer_None lb :
  selectServer lb = None <-> Forall (fun s => skipped s = true) (Servers lb).
Proof.
  pose proof (selectServer_selected lb) as Hsel. unfold selectServer.
  destruct (selectServer_loop 0 (Servers lb) None) as [[j o]|]; simpl in *.
  - split; [done |]. intros Hall. destruct Hsel as (Hj & Ho & _).
    rewrite Forall_lookup in Hall. rewrite (Hall j o Hj) in Ho. discriminate.
  - split; [|done]. intros _. by apply Forall_lookup.
Qed.

End Selector.




(** A server that is not skipped and has a positive capacity is strictly
    below its capacity. *)
Lemma not_skipped_below_capacity s :
  wf_Server s -> skipped s = false -> 0 < MaximumActiveConnections s ->
  CurrentActiveConnections s < MaximumActiveConnections s.
Proof.
  intros Hwf Hs Hmax. unfold skipped in Hs. apply orb_false_iff in Hs as [_ Hge].
  destruct (Z.lt_ge_cases (CurrentActiveConnections s) (MaximumActiveConnections s));
    [done|].
  rewrite full_ge_one in Hge; [done.. | lia].
Qed.

(** C1 (amended): for every registry snapshot the entry that [selectServer]
    returns is healthy and its normalized load is not [>= 1.0]: the load is
    strictly below 1.0 or it is not a number.  When the entry has a positive
    capacity it has fewer active connections than its capacity; its load is
    not a number only when it has capacity 0 and no active connection. *)
Theorem selectServer_healthy_not_full lb i :
  selectServer lb = Some i ->
  exists s, Servers lb !! i = Some s /\ Status s = true /\ ge (load s) one = false /\
    (lt (load s) one = true \/ is_nan (load s) = true) /\
    (wf_Server s ->
       (0 < MaximumActiveConnections s ->
          CurrentActiveConnections s < MaximumActiveConnections s) /\
       (is_nan (load s) = true ->
          CurrentActiveConnections s = 0 /\ MaximumActiveConnections s = 0)).
Proof.
  intros (s & Hloop)%selectServer_Some.
  pose proof (selectServer_selected lb) as Hsel. rewrite Hloop in Hsel.
  destruct Hsel as (Hi & Hs & _). exists s. pose proof Hs as Hskip. unfold skipped in Hs.
  apply orb_false_iff in Hs as [Hstatus Hge]. apply negb_false_iff in Hstatus.
  split_and!; [done..| |].
  - destruct (is_nan (load s)) eqn:Hnan; [by right | left]. by apply not_ge_lt.
  - intros Hwf. split; [by apply not_skipped_below_capacity | by apply load_nan].
Qed.

Lemma selectServer_healthy_not_full_scenario_B :
  exists s, Servers scenario_B !! 1%nat = Some s /\ Status s = true /\
    ge (load s) one = false /\
    (lt (load s) one = true \/ is_nan (load s) = true) /\
    (wf_Server s ->
       (0 < MaximumActiveConnections s ->
          CurrentActiveConnections s < MaximumActiveConnections s) /\
       (is_nan (load s) = true ->
          CurrentActiveConnections s = 0 /\ MaximumActiveConnections s = 0)).
Proof. apply (selectServer_healthy_not_full scenario_B 1). reflexivity. Defined.

(** C1, as stated, fails for a healthy backend of capacity zero without
    connections: it is returned, and its load is not below 1.0. *)
Lemma zero_capacity_not_below_capacity : ~ returns_below_capacity zero_capacity_only.
Proof.
  intros H. destruct (H 0%nat zero_capacity) as (_ & _ & Hlt); [reflexivity..|].
  vm_compute in Hlt. discriminate.
Qed.






(** C9: a single healthy entry with capacity 0 and no active connection has
    the load 0/0, which is not a number; the test [load >= 1.0] is false for
    it and [selectServer] returns the entry. *)
Theorem selectServer_zero_capacity (id_ : Z) (address : string)
    (proxy : option httputil_ReverseProxy) (active requests : Z) :
  let s := {| Id := id_;
              MaximumActiveConnections := 0;
              CurrentActiveConnections := 0;
              Status := true;
              URL := address;
              ReverseProxy := proxy |} in
  load s = S754_nan /\
  ge (load s) one = false /\
  skipped s = false /\
  selectServer {| Servers := [s];
                  TotalActiveConnections := active;
                  TotalRequests := requests |} = Some 0%nat.
Proof. repeat split. Qed.

(** Scenarios A and B of the specification, and a backend of capacity one
    with one active connection. *)
Example selectServer_scenario_A : selectServer scenario_A = Some 0%nat.
Proof. reflexivity. Qed.

Example selectServer_scenario_B : selectServer scenario_B = Some 1%nat.
Proof. reflexivity. Qed.

Example selectServer_capacity_one :
  load (backend 1 1 1 true "http://localhost:9001") = one /\
  selectServer (registry [backend 1 1 1 true "http://localhost:9001"]) = None.
Proof. split; reflexivity. Qed.

(** Beyond 53 bits the conversion rounds: a backend one connection short
    of its capacity can have the load [1.0] and be skipped. *)
Example selectServer_rounded_load :
  load (backend 1 (2 ^ 62 + 1) (2 ^ 62) true "http://localhost:9001") = one /\
  selectServer (registry [backend 1 (2 ^ 62 + 1) (2 ^ 62) true "http://localhost:9001"]) = None.
Proof. split; vm_compute; reflexivity. Qed.

(** Loads are compared as [float64] values: two backends whose exact ratios
    differ can have the same load, and the first is returned although the
    exact ratio of the second is smaller. *)
Example selectServer_rounded_tie :
  let first := backend 1 (2 ^ 30 + 2) (2 ^ 30 + 1) true "http://localhost:9001" in
  let second := backend 2 (2 ^ 30 + 1) (2 ^ 30) true "http://localhost:9002" in
  load first = load second /\
  CurrentActiveConnections second * MaximumActiveConnections first <
    CurrentActiveConnections first * MaximumActiveConnections second /\
  selectServer (registry [first; second]) = Some 0%nat.
Proof. split_and!; vm_compute; reflexivity. Qed.

(** ** The request handler *)

Section Handler.

Implicit Types (lb : LoadBalancer) (w : world) (f : forwarding) (i : nat).

Lemma wrap64_in_range z : Int64.in_range z -> Int64.wrap64 z = z.
Proof.
  unfold Int64.in_range, Int64.wrap64, Int64.min_int, Int64.max_int. intros Hz.
  rewrite Z.mod_small; lia.
Qed.

Lemma wrap64_add z d : Int64.wrap64 (Int64.wrap64 z + d) = Int64.wrap64 (z + d).
Proof.
  unfold Int64.wrap64.
  replace ((z + 2 ^ 63) mod 2 ^ 64 - 2 ^ 63 + d + 2 ^ 63)
    with ((z + 2 ^ 63) mod 2 ^ 64 + d) by lia.
  rewrite Zplus_mod_idemp_l. do 2 f_equal. lia.
Qed.

(** An increment followed by a decrement gives the counter back. *)
Lemma AddInt64_inc_dec z :
  Int64.in_range z -> Int64.AddInt64 (Int64.AddInt64 z 1) (-1) = z.
Proof.
  intros Hz. unfold Int64.AddInt64. rewrite wrap64_add.
  replace (z + 1 + -1) with z by lia. by apply wrap64_in_range.
Qed.

Lemma AddInt64_succ z :
  Int64.in_range z -> z < Int64.max_int -> Int64.AddInt64 z 1 = z + 1.
Proof.
  intros Hz Hmax. unfold Int64.AddInt64. apply wrap64_in_range.
  unfold Int64.in_range, Int64.min_int, Int64.max_int in *. lia.
Qed.

(** The handler when no server is returned. *)
Lemma ServeHTTP_None f w :
  selectServer (balancer w) = None ->
  ServeHTTP f w =
    (Returned tt,
     {| balancer :=
          {| Servers := Servers (balancer w);
             TotalActiveConnections := TotalActiveConnections (balancer w);
             TotalRequests := Int64.AddInt64 (TotalRequests (balancer w)) 1 |};
        trace := trace w ++ [AddTotalRequests 1; HttpError StatusServiceUnavailable] |}).
Proof.
  intros Hsel.
  unfold ServeHTTP, mbind, Go_bind, atomic_AddInt64_TotalRequests, call_selectServer, emit.
  simpl.
  unfold selectServer in *. simpl. destruct (selectServer_loop _ _ _); [done|]. simpl.
  unfold http_Error, emit. simpl. by rewrite <- app_assoc.
Qed.

(** The proxy leaves the balancer alone and records at most its own call. *)
Lemma ReverseProxy_ServeHTTP_frame i f w :
  exists c tr,
    ReverseProxy_ServeHTTP i f w = (c, {| balancer := balancer w; trace := trace w ++ tr |}) /\
    (tr = [] \/ tr = [ProxyServeHTTP i f]) /\
    (f = Aborted -> c = Panicked).
Proof.
  unfold ReverseProxy_ServeHTTP. destruct w as [lb tr0]; simpl.
  destruct (Servers lb !! i) as [[? ? ? ? ? [[[t|]]|]]|]; simpl.
  - destruct f; eexists _, [ProxyServeHTTP i _]; (split; [reflexivity | split; [by right | done]]).
  - exists Panicked, []. rewrite app_nil_r. split; [reflexivity | split; [by left | done]].
  - exists Panicked, []. rewrite app_nil_r. split; [reflexivity | split; [by left | done]].
  - exists Panicked, []. rewrite app_nil_r. split; [reflexivity | split; [by left | done]].
Qed.

Lemma alter_inc_dec (servers : list Server) i :
  Forall wf_Server servers ->
  alter (fun s => set_CurrentActiveConnections
                    (Int64.AddInt64 (CurrentActiveConnections s) (-1)) s) i
    (alter (fun s => set_CurrentActiveConnections
                       (Int64.AddInt64 (CurrentActiveConnections s) 1) s) i servers)
  = servers.
Proof.
  intros Hwf. rewrite list_alter_alter_eq.
  rewrite <- (list_alter_id id servers i) at 2 by done.
  apply list_alter_ext; [|done]. intros s Hs. simpl.
  apply (Forall_lookup_1 _ _ _ _ Hwf) in Hs as [_ Hcur].
  destruct s; unfold set_CurrentActiveConnections; simpl in *.
  by rewrite AddInt64_inc_dec.
Qed.

(** The handler when server [i] is returned: the request counter and both
    connection counters go up, the proxy runs, and the deferred call takes
    both connection counters down again, whether the proxy returned or
    panicked. *)
Lemma ServeHTTP_Some f w i :
  selectServer (balancer w) = Some i ->
  exists c tr,
    (tr = [] \/ tr = [ProxyServeHTTP i f]) /\
    (f = Aborted -> c = Panicked) /\
    ServeHTTP f w =
      (c,
       {| balancer :=
            {| Servers :=
                 alter (fun s => set_CurrentActiveConnections
                                   (Int64.AddInt64 (CurrentActiveConnections s) (-1)) s) i
                   (alter (fun s => set_CurrentActiveConnections
                                      (Int64.AddInt64 (CurrentActiveConnections s) 1) s) i
                      (Servers (balancer w)));
               TotalActiveConnections :=
                 Int64.AddInt64 (Int64.AddInt64 (TotalActiveConnections (balancer w)) 1) (-1);
               TotalRequests := Int64.AddInt64 (TotalRequests (balancer w)) 1 |};
          trace :=
            trace w ++
            [AddTotalRequests 1; AddCurrentActiveConnections i 1; AddTotalActiveConnections 1]
            ++ tr ++
            [AddCurrentActiveConnections i (-1); AddTotalActiveConnections (-1)] |}).
Proof.
  intros Hsel.
  unfold ServeHTTP, mbind, Go_bind, atomic_AddInt64_TotalRequests, call_selectServer, emit.
  simpl.
  unfold selectServer in *. simpl. destruct (selectServer_loop _ _ _) as [[j o]|]; [|done].
  simpl in *. injection Hsel as ->.
  unfold atomic_AddInt64_CurrentActiveConnections, atomic_AddInt64_TotalActiveConnections,
    emit, defer, with_Servers. simpl.
  match goal with
  | |- context [ReverseProxy_ServeHTTP i f ?w1] =>
      destruct (ReverseProxy_ServeHTTP_frame i f w1) as (c & tr & -> & Htr & Hc)
  end.
  simpl. exists c, tr. split_and!; [done..|].
  do 2 f_equal. by rewrite <- !app_assoc.
Qed.

End Handler.



(** An entry with a positive capacity and at least as many connections is
    at or over capacity in the sense of the guard. *)
Lemma full_unavailable s :
  wf_Server s ->
  0 < MaximumActiveConnections s <= CurrentActiveConnections s ->
  unavailable s = true.
Proof.
  intros Hwf Hfull. unfold unavailable. rewrite (full_ge_one s Hwf Hfull).
  apply orb_true_r.
Qed.



(** ** The health monitor *)

Section Monitor.

Implicit Types (w : world) (i n k : nat) (results : nat -> get_result).

Lemma newStatus_true r : newStatus r = true <-> r = GetResponse 200.
Proof.
  destruct r as [|code]; simpl; [intuition congruence|].
  rewrite Z.eqb_eq. split; [by intros -> | by intros [= ->]].
Qed.

(** C5 (amended): after the probe of an entry, its flag is true if and only
    if the call returned without error and the response has the status code
    200; after an error, a timeout or any other status code the flag is
    false.  Nothing else of the entry changes. *)
Theorem healthCheck_probe_status i r w s :
  Servers (balancer w) !! i = Some s ->
  exists s',
    Servers (balancer (snd (healthCheck_probe i r w))) !! i = Some s' /\
    s' = set_Status (newStatus r) s /\
    (Status s' = true <-> r = GetResponse 200).
Proof.
  intros Hi. exists (set_Status (newStatus r) s). split_and!; [|done|].
  - unfold healthCheck_probe, Status_Store, emit, with_Servers. simpl.
    by rewrite list_lookup_alter_eq, Hi.
  - simpl. apply newStatus_true.
Qed.

Lemma healthCheck_probe_status_scenario_C :
  exists s',
    Servers (balancer (snd (healthCheck_probe 1 (GetResponse 200) (start scenario_C))))
      !! 1%nat = Some s' /\
    s' = set_Status (newStatus (GetResponse 200))
           (backend 2 3 0 false "http://localhost:9002") /\
    (Status s' = true <-> GetResponse 200 = GetResponse 200).
Proof.
  apply (healthCheck_probe_status 1 (GetResponse 200) (start scenario_C)). reflexivity.
Defined.

(** C5, as stated, fails for a backend that answers its health path with
    204: the call completes with a success status and the flag is false. *)
Lemma no_content_marks_unhealthy :
  ~ marks_healthy_on_success 0 (GetResponse 204) (start scenario_A).
Proof.
  intros H. specialize (H _ eq_refl) as [_ H]. specialize (H eq_refl). discriminate.
Qed.

(** The probes of a cycle write flags only. *)
Lemma healthCheck_probes_frame n : forall i results w,
  exists w',
    healthCheck_probes i n results w = (Returned tt, w') /\
    TotalRequests (balancer w') = TotalRequests (balancer w) /\
    TotalActiveConnections (balancer w') = TotalActiveConnections (balancer w) /\
    length (Servers (balancer w')) = length (Servers (balancer w)) /\
    trace w' = trace w ++ map (fun k => StoreStatus k (newStatus (results k))) (seq i n) /\
    forall k, Servers (balancer w') !! k =
      (if decide (i <= k < i + n)%nat then set_Status (newStatus (results k)) else id)
        <$> Servers (balancer w) !! k.
Proof.
  induction n as [|n IH]; intros i results w; simpl.
  - exists w. split_and!; try done.
    + by rewrite app_nil_r.
    + intros k. case_decide; [lia|]. by rewrite option_fmap_id.
  - unfold mbind, Go_bind. simpl.
    destruct (IH (S i) results
                {| balancer := with_Servers (alter (set_Status (newStatus (results i))) i)
                                 (balancer w);
                   trace := trace w ++ [StoreStatus i (newStatus (results i))] |})
      as (w' & -> & Hreq & Hact & Hlen & Htr & Hlook).
    simpl in *. exists w'. split_and!; try done.
    + by rewrite Hlen, length_alter.
    + by rewrite Htr, <- app_assoc.
    + intros k. rewrite Hlook. destruct (decide (i = k)) as [<-|Hne].
      * rewrite list_lookup_alter_eq. repeat case_decide; try lia.
        by rewrite option_fmap_id.
      * rewrite list_lookup_alter_ne by done. repeat case_decide; try lia; done.
Qed.

(** After a cycle every entry carries the outcome of its own probe. *)
Lemma healthCheck_cycle_status results w k s :
  Servers (balancer (snd (healthCheck_cycle results w))) !! k = Some s ->
  (Status s = true <-> results k = GetResponse 200).
Proof.
  unfold healthCheck_cycle.
  destruct (healthCheck_probes_frame (length (Servers (balancer w))) 0 results w)
    as (w' & -> & _ & _ & Hlen & _ & Hlook).
  simpl. intros Hk. pose proof (lookup_lt_Some _ _ _ Hk) as Hlt.
  rewrite Hlook in Hk. case_decide; [|lia].
  destruct (Servers (balancer w) !! k) as [s0|]; [|done].
  injection Hk as <-. simpl. apply newStatus_true.
Qed.

End Monitor.

(** ** Runs of the dispatcher *)

Section Runs.

Implicit Types (w : world) (a : action) (actions : list action).

(** A request adds one to the counter of requests, once. *)
Lemma perform_Request f w :
  TotalRequests (balancer (perform (Request f) w)) =
    Int64.AddInt64 (TotalRequests (balancer w)) 1 /\
  List.filter on_TotalRequests (trace (perform (Request f) w)) =
    List.filter on_TotalRequests (trace w) ++ [AddTotalRequests 1].
Proof.
  simpl. destruct (selectServer (balancer w)) as [i|] eqn:Hsel.
  - destruct (ServeHTTP_Some f w i Hsel) as (c & tr & Htr & _ & ->). simpl.
    split; [done|]. rewrite !List.filter_app. simpl.
    destruct Htr as [-> | ->]; simpl; by rewrite ?app_nil_r.
  - rewrite (ServeHTTP_None f w Hsel). simpl. split; [done|].
    by rewrite List.filter_app.
Qed.

(** A cycle of the monitor does not touch the counter of requests. *)
Lemma perform_MonitorCycle results w :
  TotalRequests (balancer (perform (MonitorCycle results) w)) = TotalRequests (balancer w) /\
  List.filter on_TotalRequests (trace (perform (MonitorCycle results) w)) =
    List.filter on_TotalRequests (trace w).
Proof.
  simpl. unfold healthCheck_cycle.
  destruct (healthCheck_probes_frame (length (Servers (balancer w))) 0 results w)
    as (w' & -> & Hreq & _ & _ & Htr & _).
  simpl. split; [done|]. rewrite Htr, List.filter_app.
  rewrite <- (app_nil_r (List.filter on_TotalRequests (trace w))) at 2. f_equal.
  generalize (seq 0 (length (Servers (balancer w)))). intros ks.
  induction ks as [|k ks IH]; simpl; done.
Qed.

(** C8 (amended): every request adds exactly one to the counter of requests,
    also when it ends in service-unavailable, and no action of the
    dispatcher takes from it or resets it: as long as the counter stays
    within the 64-bit range, after a run it is the counter before plus the
    number of requests of the run. *)
Theorem TotalRequests_counts_requests actions : forall w,
  Int64.in_range (TotalRequests (balancer w)) ->
  TotalRequests (balancer w) + Z.of_nat (count_Requests actions) <= Int64.max_int ->
  TotalRequests (balancer (run actions w)) =
    TotalRequests (balancer w) + Z.of_nat (count_Requests actions) /\
  List.filter on_TotalRequests (trace (run actions w)) =
    List.filter on_TotalRequests (trace w) ++
    replicate (count_Requests actions) (AddTotalRequests 1).
Proof.
  unfold run, count_Requests.
  induction actions as [|a actions IH]; intros w Hrange Hmax; simpl in *.
  - split; [lia | by rewrite app_nil_r].
  - destruct a as [f|results].
    + destruct (perform_Request f w) as [Hreq Htr]. simpl in Hreq, Htr, Hmax |- *.
      assert (Hsucc : Int64.AddInt64 (TotalRequests (balancer w)) 1 =
                      TotalRequests (balancer w) + 1).
      { apply AddInt64_succ; [done | lia]. }
      destruct (IH (ServeHTTP f w).2) as [IHreq IHtr].
      * rewrite Hreq, Hsucc. unfold Int64.in_range in *. lia.
      * rewrite Hreq, Hsucc. lia.
      * rewrite IHreq, IHtr, Hreq, Hsucc, Htr. split; [lia|]. by rewrite <- app_assoc.
    + destruct (perform_MonitorCycle results w) as [Hreq Htr]. simpl in Hreq, Htr, Hmax |- *.
      destruct (IH (healthCheck_cycle results w).2) as [IHreq IHtr].
      * by rewrite Hreq.
      * by rewrite Hreq.
      * by rewrite IHreq, IHtr, Hreq, Htr.
Qed.

Lemma TotalRequests_counts_requests_scenario_C :
  TotalRequests (balancer (run [Request BadGateway; MonitorCycle (fun _ => GetError);
                                Request (Relayed 200)] (start scenario_C))) =
    TotalRequests (balancer (start scenario_C)) + Z.of_nat 2 /\
  List.filter on_TotalRequests
    (trace (run [Request BadGateway; MonitorCycle (fun _ => GetError);
                 Request (Relayed 200)] (start scenario_C))) =
    List.filter on_TotalRequests (trace (start scenario_C)) ++
    replicate 2 (AddTotalRequests 1).
Proof.
  apply (TotalRequests_counts_requests
           [Request BadGateway; MonitorCycle (fun _ => GetError); Request (Relayed 200)]
           (start scenario_C)).
  - split; vm_compute; discriminate.
  - vm_compute. discriminate.
Defined.

(** C8, as stated, fails at the largest [int64]: the next request wraps the
    counter around to the smallest. *)
Lemma saturated_TotalRequests_decreases :
  ~ TotalRequests_never_decreases (start saturated).
Proof.
  intros H. specialize (H (Request BadGateway)). vm_compute in H. by apply H.
Qed.


End Runs.


(** ** Startup *)

Section Startup.

Implicit Types (env : environment) (j : LoadBalancerJSON).




(** Whatever the servers file declares, a balancer that serves starts with
    every flag false. *)
Lemma decode_Server_Status d s : decode_Server d = Some s -> Status s = false.
Proof.
  unfold decode_Server.
  destruct (decode_int64 (json_Id d)), (decode_int64 (json_MaximumActiveConnections d)),
    (decode_int64 (json_CurrentActiveConnections d)), (json_Status d); simpl; try done.
  by intros [= <-].
Qed.

Lemma main_Serving_Status env lb :
  main env = Serving lb -> Forall (fun s => Status s = false) (Servers lb).
Proof.
  unfold main. destruct (servers_file env) as [[|j]|]; try done.
  destruct (json_Unmarshal j) as [lb0|] eqn:Hdec; [|done].
  destruct (listen_error env); [done|]. intros [= <-]. simpl.
  unfold json_Unmarshal in Hdec.
  destruct (mapM decode_Server (default [] (json_Servers j))) as [servers|] eqn:Hservers;
    simpl in Hdec; [|done].
  destruct (decode_int64 (json_TotalActiveConnections j)); simpl in Hdec; [|done].
  destruct (decode_int64 (json_TotalRequests j)); simpl in Hdec; [|done].
  injection Hdec as <-. simpl.
  apply mapM_Some_1 in Hservers. apply Forall_map.
  induction Hservers as [|d s ds ss Hd _ IH]; [constructor|].
  constructor; [|done]. simpl. by apply decode_Server_Status in Hd.
Qed.

(** C7 fails on the code: on the servers file of the README, which declares
    the status [true] for both backends, [json.Unmarshal] reports an error
    and [main] returns before it serves; no flag is initialized from the
    file. *)
Theorem main_README_servers_Exited :
  json_Unmarshal README_servers = None /\
  main (serving_environment README_servers) = Exited /\
  ~ starts_with_declared_status (serving_environment README_servers).
Proof.
  split_and!; [reflexivity..|].
  intros H. destruct (H README_servers _ eq_refl eq_refl) as (lb & Hmain & _).
  discriminate Hmain.
Qed.

End Startup.

(** * Further properties of the code *)

(** ** The selector *)

(** X1: [selectServer] returns none exactly when the guard skips every
    entry, and an index it returns lies within the list. *)
Theorem selectServer_none_iff_all_skipped lb :
  (selectServer lb = None <-> Forall (fun s => skipped s = true) (Servers lb)) /\
  (forall i, selectServer lb = Some i -> (i < length (Servers lb))%nat).
Proof.
  split; [apply selectServer_None|].
  intros i (s & Hloop)%selectServer_Some.
  pose proof (selectServer_selected lb) as Hsel. rewrite Hloop in Hsel.
  destruct Hsel as (Hi & _). by apply lookup_lt_Some in Hi.
Qed.

(** X2: for every snapshot, no entry that passes the guard has a load
    strictly smaller than the load of the entry that [selectServer]
    returns. *)
Theorem selectServer_no_smaller_load lb i r :
  selectServer lb = Some i -> Servers lb !! i = Some r ->
  forall k s, Servers lb !! k = Some s -> skipped s = false ->
    lt (load s) (load r) = false.
Proof.
  intros (r' & Hloop)%selectServer_Some Hi.
  pose proof (selectServer_selected lb) as Hsel. rewrite Hloop in Hsel.
  destruct Hsel as (Hi' & _ & Hmin). rewrite Hi in Hi'. by injection Hi' as <-.
Qed.

Lemma selectServer_no_smaller_load_busy :
  lt (load (backend 1 5 3 true "http://localhost:9001"))
     (load (backend 2 3 1 true "http://localhost:9002")) = false.
Proof.
  apply (selectServer_no_smaller_load
           (registry [backend 1 5 3 true "http://localhost:9001";
                      backend 2 3 1 true "http://localhost:9002"])
           1 (backend 2 3 1 true "http://localhost:9002"))
    with (k := 0%nat); reflexivity.
Defined.

(** X3: when the connections and the positive capacity of a server are
    below [2 ^ 53], the guard skips the server exactly when it is unhealthy
    or has at least as many connections as its capacity. *)
Theorem guard_compares_integers s :
  0 <= CurrentActiveConnections s < 2 ^ 53 ->
  0 < MaximumActiveConnections s < 2 ^ 53 ->
  skipped s = true <->
  Status s = false \/ MaximumActiveConnections s <= CurrentActiveConnections s.
Proof. apply skipped_iff. Qed.

Lemma guard_compares_integers_full_backend :
  skipped (backend 1 5 5 true "http://localhost:9001") = true <->
  true = false \/ 5 <= 5.
Proof.
  apply (guard_compares_integers (backend 1 5 5 true "http://localhost:9001"));
    simpl; lia.
Defined.

(** X4: over the whole range of [int64], a server with a positive capacity
    and at least as many connections is skipped; so a server that passes the
    guard and has a positive capacity has fewer connections than its
    capacity. *)
Theorem full_backend_is_skipped s :
  wf_Server s ->
  0 < MaximumActiveConnections s <= CurrentActiveConnections s ->
  skipped s = true.
Proof.
  intros Hwf Hfull. unfold skipped. rewrite (full_ge_one s Hwf Hfull). apply orb_true_r.
Qed.

Lemma full_backend_is_skipped_largest :
  skipped (backend 1 (2 ^ 63 - 2) (2 ^ 63 - 1) true "http://localhost:9001") = true.
Proof.
  apply (full_backend_is_skipped
           (backend 1 (2 ^ 63 - 2) (2 ^ 63 - 1) true "http://localhost:9001")).
  - unfold wf_Server, Int64.in_range, Int64.min_int, Int64.max_int. simpl. lia.
  - simpl. lia.
Defined.

(** X5: the load of a server is not a number exactly when the server has
    capacity zero and no connection. *)
Theorem load_is_nan_iff s :
  wf_Server s ->
  is_nan (load s) = true <->
  CurrentActiveConnections s = 0 /\ MaximumActiveConnections s = 0.
Proof. apply load_nan. Qed.

Lemma load_is_nan_iff_zero_capacity :
  is_nan (load zero_capacity) = true <-> 0 = 0 /\ 0 = 0.
Proof.
  apply (load_is_nan_iff zero_capacity).
  unfold wf_Server, Int64.in_range, Int64.min_int, Int64.max_int. simpl. lia.
Defined.

(** The loop on two lists of servers that agree in flags, connections and
    capacities. *)
Lemma same_load_load s t : same_load s t -> load s = load t /\ skipped s = skipped t.
Proof.
  intros (Hs & Hc & Hm). unfold skipped, load. by rewrite Hs, Hc, Hm.
Qed.

Lemma selectServer_loop_same_load l l' :
  Forall2 same_load l l' ->
  forall i acc acc',
    fst <$> acc = fst <$> acc' ->
    (forall j o o', acc = Some (j, o) -> acc' = Some (j, o') -> same_load o o') ->
    fst <$> selectServer_loop i l acc = fst <$> selectServer_loop i l' acc'.
Proof.
  induction 1 as [|s t l l' Hst _ IH]; intros i acc acc' Hidx Hacc; simpl; [done|].
  destruct (same_load_load s t Hst) as [Hload Hskip].
  apply IH; unfold selectServer_body; rewrite <- Hskip, <- Hload.
  - destruct (skipped s); [done|].
    destruct acc as [[j o]|], acc' as [[j' o']|]; simpl in *; try done.
    injection Hidx as <-.
    destruct (same_load_load o o' (Hacc j o o' eq_refl eq_refl)) as [<- _].
    by destruct (lt (load s) (load o)).
  - intros j o o'. destruct (skipped s); [by apply Hacc|].
    destruct acc as [[j0 o0]|], acc' as [[j0' o0']|]; simpl in *; try done.
    + injection Hidx as <-.
      destruct (same_load_load o0 o0' (Hacc j0 o0 o0' eq_refl eq_refl)) as [<- _].
      destruct (lt (load s) (load o0)); intros [= <- <-] [= <-]; [done|].
      by apply (Hacc j0).
    + by intros [= <- <-] [= <-].
Qed.

(** X6: the selection depends on the flags, the connections and the
    capacities only: two balancers whose servers agree in these, in order,
    select the same index, whatever their ids, addresses, proxies and
    totals. *)
Theorem selectServer_reads_load_only lb lb' :
  Forall2 same_load (Servers lb) (Servers lb') -> selectServer lb = selectServer lb'.
Proof.
  intros Hsame. unfold selectServer.
  apply (selectServer_loop_same_load _ _ Hsame); [done|]. by intros j o o' [=].
Qed.

Lemma selectServer_reads_load_only_scenario_B :
  selectServer scenario_B =
  selectServer {| Servers := [backend 7 5 5 true "a"; backend 8 3 2 true "b"];
                  TotalActiveConnections := 4;
                  TotalRequests := 9 |}.
Proof.
  apply (selectServer_reads_load_only scenario_B).
  repeat (apply Forall2_cons_2; [by repeat split|]). apply Forall2_nil_2.
Defined.

(** Once the optimum has a load that is not a number, it stays. *)
Lemma selectServer_loop_nan rest : forall i j o,
  is_nan (load o) = true ->
  selectServer_loop i rest (Some (j, o)) = Some (j, o).
Proof.
  induction rest as [|s rest IH]; intros i j o Hnan; simpl; [done|].
  unfold selectServer_body. destruct (skipped s); [by apply IH|].
  destruct (lt (load s) (load o)) eqn:Hlt; [|by apply IH].
  apply lt_not_nan in Hlt as [_ Hlt]. congruence.
Qed.

Lemma selectServer_loop_skipped pre : forall i,
  Forall (fun s => skipped s = true) pre ->
  forall rest, selectServer_loop i (pre ++ rest) None =
               selectServer_loop (i + length pre) rest None.
Proof.
  induction pre as [|s pre IH]; intros i Hpre rest; simpl.
  - f_equal. lia.
  - apply Forall_cons in Hpre as [Hs Hpre]. unfold selectServer_body. rewrite Hs.
    rewrite IH by done. f_equal. lia.
Qed.

(** X7: a healthy server with capacity zero and no connection that comes
    after skipped servers only is returned, whatever the servers after it
    are. *)
Theorem zero_capacity_is_selected lb pre s rest :
  Servers lb = pre ++ s :: rest ->
  Forall (fun s' => skipped s' = true) pre ->
  Status s = true -> MaximumActiveConnections s = 0 -> CurrentActiveConnections s = 0 ->
  selectServer lb = Some (length pre).
Proof.
  intros Hlb Hpre Hs Hmax Hcur. unfold selectServer. rewrite Hlb.
  rewrite selectServer_loop_skipped by done. simpl.
  assert (Hload : load s = S754_nan) by (unfold load; by rewrite Hmax, Hcur).
  unfold selectServer_body, skipped. rewrite Hs, Hload. simpl.
  rewrite selectServer_loop_nan; [done|]. by rewrite Hload.
Qed.

Lemma zero_capacity_is_selected_after_full :
  selectServer (registry [backend 1 5 5 true "http://localhost:9001";
                          zero_capacity;
                          backend 2 3 0 true "http://localhost:9002"]) = Some 1%nat.
Proof.
  apply (zero_capacity_is_selected _ [backend 1 5 5 true "http://localhost:9001"]
           zero_capacity [backend 2 3 0 true "http://localhost:9002"]);
    try reflexivity.
  apply Forall_cons_2; [reflexivity | apply Forall_nil_2].
Defined.

(** ** The monitor *)

(** What a monitor cycle does to the balancer. *)
Lemma healthCheck_cycle_imap results w :
  exists w',
    healthCheck_cycle results w = (Returned tt, w') /\
    Servers (balancer w') =
      imap (fun k s => set_Status (newStatus (results k)) s) (Servers (balancer w)) /\
    TotalActiveConnections (balancer w') = TotalActiveConnections (balancer w) /\
    TotalRequests (balancer w') = TotalRequests (balancer w) /\
    trace w' =
      trace w ++ map (fun k => StoreStatus k (newStatus (results k)))
                     (seq 0 (length (Servers (balancer w)))).
Proof.
  unfold healthCheck_cycle.
  destruct (healthCheck_probes_frame (length (Servers (balancer w))) 0 results w)
    as (w' & Hrun & Hreq & Hact & Hlen & Htr & Hlook).
  exists w'. split_and!; try done.
  apply list_eq. intros k. rewrite Hlook, list_lookup_imap.
  destruct (Servers (balancer w) !! k) as [s|] eqn:Hk; [|done].
  apply lookup_lt_Some in Hk. case_decide; [done | lia].
Qed.

(** X8: a monitor cycle returns, whatever the probes give; it stores in
    every server the flag of the server's own probe and changes nothing
    else: the other fields, the order and the number of the servers and both
    totals stay. *)
Theorem healthCheck_cycle_effect results w :
  exists w',
    healthCheck_cycle results w = (Returned tt, w') /\
    Servers (balancer w') =
      imap (fun k s => set_Status (newStatus (results k)) s) (Servers (balancer w)) /\
    TotalActiveConnections (balancer w') = TotalActiveConnections (balancer w) /\
    TotalRequests (balancer w') = TotalRequests (balancer w) /\
    trace w' =
      trace w ++ map (fun k => StoreStatus k (newStatus (results k)))
                     (seq 0 (length (Servers (balancer w)))).
Proof. apply healthCheck_cycle_imap. Qed.

(** X9: after a monitor cycle [selectServer] does not return a server whose
    probe in that cycle failed: an error, a timeout or a status other than
    200. *)
Theorem failed_probe_not_selected results w i :
  results i <> GetResponse 200 ->
  selectServer (balancer (snd (healthCheck_cycle results w))) <> Some i.
Proof.
  intros Hfail (s & Hloop)%selectServer_Some.
  pose proof (selectServer_selected (balancer (snd (healthCheck_cycle results w)))) as Hsel.
  rewrite Hloop in Hsel. destruct Hsel as (Hi & Hs & _).
  apply healthCheck_cycle_status in Hi. unfold skipped in Hs.
  apply orb_false_iff in Hs as [Hs _]. apply negb_false_iff in Hs.
  apply Hfail. by apply Hi.
Qed.

Lemma failed_probe_not_selected_scenario_A :
  selectServer
    (balancer (snd (healthCheck_cycle
                      (fun k => if Nat.eqb k 0 then GetError else GetResponse 200)
                      (start scenario_A)))) <> Some 0%nat.
Proof.
  apply (failed_probe_not_selected
           (fun k => if Nat.eqb k 0 then GetError else GetResponse 200)
           (start scenario_A) 0).
  discriminate.
Defined.

(** ** Runs *)

Lemma same_but_Status_refl s : same_but_Status s s.
Proof. by repeat split. Qed.

Lemma same_but_Status_trans s t u :
  same_but_Status s t -> same_but_Status t u -> same_but_Status s u.
Proof.
  intros (? & ? & ? & ? & ?) (? & ? & ? & ? & ?). repeat split; congruence.
Qed.

Lemma same_but_Status_wf s t : same_but_Status s t -> wf_Server s -> wf_Server t.
Proof. intros (_ & Hm & Hc & _) [? ?]. split; congruence. Qed.

(** A request leaves the servers as they were. *)
Lemma perform_Request_balancer f w :
  wf_LoadBalancer (balancer w) ->
  Servers (balancer (perform (Request f) w)) = Servers (balancer w) /\
  TotalActiveConnections (balancer (perform (Request f) w)) =
    TotalActiveConnections (balancer w).
Proof.
  intros (Hservers & Hactive & _). simpl.
  destruct (selectServer (balancer w)) as [i|] eqn:Hsel.
  - destruct (ServeHTTP_Some f w i Hsel) as (c & tr & _ & _ & ->). simpl.
    split; [by apply alter_inc_dec | by apply AddInt64_inc_dec].
  - by rewrite (ServeHTTP_None f w Hsel).
Qed.

Lemma wrap64_range z : Int64.in_range (Int64.wrap64 z).
Proof.
  unfold Int64.in_range, Int64.wrap64, Int64.min_int, Int64.max_int.
  pose proof (Z.mod_pos_bound (z + 2 ^ 63) (2 ^ 64) ltac:(lia)). lia.
Qed.

Lemma perform_frame a w :
  wf_LoadBalancer (balancer w) ->
  wf_LoadBalancer (balancer (perform a w)) /\
  Forall2 same_but_Status (Servers (balancer w)) (Servers (balancer (perform a w))) /\
  TotalActiveConnections (balancer (perform a w)) = TotalActiveConnections (balancer w) /\
  TotalRequests (balancer (perform a w)) =
    Int64.wrap64 (TotalRequests (balancer w) + (if is_Request a then 1 else 0)).
Proof.
  intros Hwf. pose proof Hwf as (Hservers & Hactive & Hrequests). destruct a as [f|results].
  - destruct (perform_Request_balancer f w Hwf) as [Hs Ha].
    destruct (perform_Request f w) as [Hr _].
    assert (Hsame : Forall2 same_but_Status (Servers (balancer w))
                      (Servers (balancer (perform (Request f) w)))).
    { rewrite Hs. apply Forall_Forall2_diag, Forall_forall. intros. apply same_but_Status_refl. }
    split_and!; [| done | done | done].
    unfold wf_LoadBalancer. rewrite Hs, Ha, Hr. split_and!; [done.. |]. apply wrap64_range.
  - destruct (healthCheck_cycle_imap results w) as (w' & Hrun & Hs & Ha & Hr & _).
    cbn [perform is_Request]. rewrite Hrun. cbn [snd].
    assert (Hsame : Forall2 same_but_Status (Servers (balancer w)) (Servers (balancer w'))).
    { rewrite Hs. apply Forall2_same_length_lookup. split; [by rewrite length_imap|].
      intros k s s' Hk. rewrite list_lookup_imap, Hk. intros [= <-]. by repeat split. }
    split_and!; [| done | done |].
    + unfold wf_LoadBalancer. rewrite Ha, Hr. split_and!; [|done..].
      apply Forall_lookup. intros k s' Hk'.
      destruct (Forall2_lookup_r _ _ _ _ _ Hsame Hk') as (s & Hk & Hss).
      apply (same_but_Status_wf s s' Hss). by apply (Forall_lookup_1 _ _ _ _ Hservers Hk).
    + rewrite Hr, Z.add_0_r. symmetry. by apply wrap64_in_range.
Qed.

(** Over a run only flags and the counter of requests change. *)
Lemma run_keeps_registry_lemma actions : forall w,
  wf_LoadBalancer (balancer w) ->
  wf_LoadBalancer (balancer (run actions w)) /\
  Forall2 same_but_Status (Servers (balancer w)) (Servers (balancer (run actions w))) /\
  TotalActiveConnections (balancer (run actions w)) = TotalActiveConnections (balancer w) /\
  TotalRequests (balancer (run actions w)) =
    Int64.wrap64 (TotalRequests (balancer w) + Z.of_nat (count_Requests actions)).
Proof.
  unfold run, count_Requests.
  induction actions as [|a actions IH]; intros w Hwf; cbn [foldl List.filter].
  - split_and!; [done | | done |].
    + apply Forall_Forall2_diag, Forall_forall. intros. apply same_but_Status_refl.
    + destruct Hwf as (_ & _ & Hr). simpl. rewrite Z.add_0_r. symmetry.
      by apply wrap64_in_range.
  - destruct (perform_frame a w Hwf) as (Hwf1 & Hsame1 & Hact1 & Hreq1).
    destruct (IH (perform a w) Hwf1) as (Hwf2 & Hsame2 & Hact2 & Hreq2).
    split_and!; [done | | congruence |].
    + eapply Forall2_trans; [| exact Hsame1 | exact Hsame2].
      intros s t u. apply same_but_Status_trans.
    + rewrite Hreq2, Hreq1, wrap64_add. f_equal.
      destruct (is_Request a); cbn [length]; lia.
Qed.


(** X10: over any run of requests and monitor cycles from a well-formed
    balancer, the servers keep their number, order, ids, capacities,
    addresses, proxies and connections, and the total of active connections
    is as before; the counter of requests is the one before plus the number
    of requests, reduced to 64 bits. *)
Theorem run_keeps_registry actions : forall w,
  wf_LoadBalancer (balancer w) ->
  wf_LoadBalancer (balancer (run actions w)) /\
  Forall2 same_but_Status (Servers (balancer w)) (Servers (balancer (run actions w))) /\
  TotalActiveConnections (balancer (run actions w)) = TotalActiveConnections (balancer w) /\
  TotalRequests (balancer (run actions w)) =
    Int64.wrap64 (TotalRequests (balancer w) + Z.of_nat (count_Requests actions)).
Proof. apply run_keeps_registry_lemma. Qed.

Lemma run_keeps_registry_scenario_B :
  wf_LoadBalancer
    (balancer (run [Request Aborted; MonitorCycle (fun _ => GetError); Request BadGateway]
                   (start scenario_B))) /\
  Forall2 same_but_Status (Servers (balancer (start scenario_B)))
    (Servers (balancer (run [Request Aborted; MonitorCycle (fun _ => GetError);
                             Request BadGateway] (start scenario_B)))) /\
  TotalActiveConnections
    (balancer (run [Request Aborted; MonitorCycle (fun _ => GetError); Request BadGateway]
                   (start scenario_B))) =
    TotalActiveConnections (balancer (start scenario_B)) /\
  TotalRequests
    (balancer (run [Request Aborted; MonitorCycle (fun _ => GetError); Request BadGateway]
                   (start scenario_B))) =
    Int64.wrap64 (TotalRequests (balancer (start scenario_B)) +
                  Z.of_nat (count_Requests [Request Aborted; MonitorCycle (fun _ => GetError);
                                            Request BadGateway])).
Proof.
  apply (run_keeps_registry
           [Request Aborted; MonitorCycle (fun _ => GetError); Request BadGateway]
           (start scenario_B)).
  unfold wf_LoadBalancer, wf_Server, Int64.in_range, Int64.min_int, Int64.max_int. simpl.
  split_and!; [|lia..]. repeat (apply Forall_cons_2; [simpl; lia|]). apply Forall_nil_2.
Defined.

Lemma last_cycle_snoc actions a :
  last_cycle (actions ++ [a]) =
    match a with
    | MonitorCycle results => Some results
    | Request _ => last_cycle actions
    end.
Proof. unfold last_cycle. by rewrite foldl_app. Qed.

Lemma run_snoc actions a w : run (actions ++ [a]) w = perform a (run actions w).
Proof. unfold run. by rewrite foldl_app. Qed.

(** X11: after a run from a well-formed balancer the flag of a server is the
    one that the last monitor cycle of the run stored for it, and the flag
    it had before when the run has no monitor cycle: requests never change a
    flag, and only the latest probe counts. *)
Theorem flags_follow_last_cycle actions : forall w k s s',
  wf_LoadBalancer (balancer w) ->
  Servers (balancer w) !! k = Some s ->
  Servers (balancer (run actions w)) !! k = Some s' ->
  Status s' =
    match last_cycle actions with
    | Some results => newStatus (results k)
    | None => Status s
    end.
Proof.
  induction actions as [|a actions IH] using rev_ind; intros w k s s' Hwf Hk Hk'.
  - simpl in *. congruence.
  - rewrite run_snoc in Hk'. rewrite last_cycle_snoc.
    destruct (run_keeps_registry_lemma actions w Hwf) as (Hwf' & _).
    destruct a as [f|results].
    + destruct (perform_Request_balancer f (run actions w) Hwf') as [Hs _].
      rewrite Hs in Hk'. by apply (IH w k s s').
    + destruct (healthCheck_cycle_imap results (run actions w)) as (w' & Hrun & Hs & _).
      cbn [perform] in Hk'. rewrite Hrun in Hk'. cbn [snd] in Hk'.
      rewrite Hs, list_lookup_imap in Hk'.
      destruct (Servers (balancer (run actions w)) !! k); [|done]. by injection Hk' as <-.
Qed.

Lemma flags_follow_last_cycle_scenario_C :
  Status (backend 1 5 0 true "http://localhost:9001") =
    match last_cycle [MonitorCycle (fun _ => GetResponse 200); Request BadGateway] with
    | Some results => newStatus (results 0%nat)
    | None => Status (backend 1 5 0 false "http://localhost:9001")
    end.
Proof.
  apply (flags_follow_last_cycle
           [MonitorCycle (fun _ => GetResponse 200); Request BadGateway]
           (start scenario_C) 0
           (backend 1 5 0 false "http://localhost:9001")
           (backend 1 5 0 true "http://localhost:9001")).
  - unfold wf_LoadBalancer, wf_Server, Int64.in_range, Int64.min_int, Int64.max_int. simpl.
    split_and!; [|lia..]. repeat (apply Forall_cons_2; [simpl; lia|]). apply Forall_nil_2.
  - reflexivity.
  - reflexivity.
Defined.

(** ** Requests in flight *)

Section InFlight.

Implicit Types (t : traffic) (w : world) (i k : nat).

(** The handler is its first half, the call of the proxy and its deferred
    half. *)
Lemma ServeHTTP_halves f w :
  ServeHTTP f w =
    match ServeHTTP_enter w with
    | (Returned (Some i), w1) => defer (ServeHTTP_leave i) (ReverseProxy_ServeHTTP i f) w1
    | (Returned None, w1) => (Returned tt, w1)
    | (Panicked, w1) => (Panicked, w1)
    end.
Proof.
  unfold ServeHTTP, ServeHTTP_enter, ServeHTTP_leave, mbind, Go_bind, mret, Go_ret,
    atomic_AddInt64_TotalRequests, call_selectServer, emit. simpl.
  destruct (selectServer _) as [i|]; reflexivity.
Qed.

Lemma ServeHTTP_enter_None w :
  selectServer (balancer w) = None ->
  ServeHTTP_enter w =
    (Returned None,
     {| balancer :=
          {| Servers := Servers (balancer w);
             TotalActiveConnections := TotalActiveConnections (balancer w);
             TotalRequests := Int64.AddInt64 (TotalRequests (balancer w)) 1 |};
        trace := trace w ++ [AddTotalRequests 1; HttpError StatusServiceUnavailable] |}).
Proof.
  intros Hsel.
  unfold ServeHTTP_enter, mbind, Go_bind, mret, Go_ret, atomic_AddInt64_TotalRequests,
    call_selectServer, emit. simpl.
  unfold selectServer in *. simpl. destruct (selectServer_loop _ _ _); [done|]. simpl.
  unfold http_Error, emit. simpl. by rewrite <- app_assoc.
Qed.

Lemma ServeHTTP_enter_Some w i :
  selectServer (balancer w) = Some i ->
  ServeHTTP_enter w =
    (Returned (Some i),
     {| balancer :=
          {| Servers :=
               alter (fun s => set_CurrentActiveConnections
                                 (Int64.AddInt64 (CurrentActiveConnections s) 1) s) i
                 (Servers (balancer w));
             TotalActiveConnections :=
               Int64.AddInt64 (TotalActiveConnections (balancer w)) 1;
             TotalRequests := Int64.AddInt64 (TotalRequests (balancer w)) 1 |};
        trace :=
          trace w ++
          [AddTotalRequests 1; AddCurrentActiveConnections i 1;
           AddTotalActiveConnections 1] |}).
Proof.
  intros Hsel.
  unfold ServeHTTP_enter, mbind, Go_bind, mret, Go_ret, atomic_AddInt64_TotalRequests,
    call_selectServer, emit. simpl.
  unfold selectServer in *. simpl. destruct (selectServer_loop _ _ _) as [[j o]|]; [|done].
  simpl in *. injection Hsel as ->.
  unfold atomic_AddInt64_CurrentActiveConnections, atomic_AddInt64_TotalActiveConnections,
    emit, with_Servers. simpl. by rewrite <- !app_assoc.
Qed.

Lemma AddInt64_pred z :
  Int64.in_range z -> Int64.min_int < z -> Int64.AddInt64 z (-1) = z - 1.
Proof.
  intros Hz Hmin. unfold Int64.AddInt64. apply wrap64_in_range.
  unfold Int64.in_range, Int64.min_int, Int64.max_int in *. lia.
Qed.

Lemma count_occ_delete (l : list nat) : forall k i j,
  l !! k = Some i ->
  count_occ Nat.eq_dec l j =
    (count_occ Nat.eq_dec (delete k l) j + (if decide (i = j) then 1 else 0))%nat.
Proof.
  induction l as [|x l IH]; intros k i j Hk; [done|].
  destruct k as [|k]; simpl in *.
  - injection Hk as ->. destruct (Nat.eq_dec i j), (decide (i = j)); try done; lia.
  - rewrite (IH k i j Hk). destruct (Nat.eq_dec x j); lia.
Qed.

Lemma fresh_accounted lb : fresh lb -> accounted (idle lb).
Proof.
  intros [Hservers Htotal]. unfold accounted, idle, in_flight_at. simpl. split_and!.
  - intros i s Hi. apply (Forall_lookup_1 _ _ _ _ Hservers) in Hi as (Hc & Hm). lia.
  - intros i Hi. by apply elem_of_nil in Hi.
  - by rewrite Htotal.
Qed.

Lemma move_accounted mv t : accounted t -> accounted (move mv t).
Proof.
  intros (Hcount & Hvalid & Htotal). destruct t as [w fl].
  unfold in_flight_at in *. cbn [in_flight board] in *.
  destruct mv as [|k|results]; cbn [move board in_flight].
  - (* a request arrives *)
    destruct (selectServer (balancer w)) as [i|] eqn:Hsel.
    + rewrite (ServeHTTP_enter_Some w i Hsel).
      apply selectServer_Some in Hsel as (s & Hloop).
      pose proof (selectServer_selected (balancer w)) as Hsel. rewrite Hloop in Hsel.
      destruct Hsel as (Hi & Hs & _).
      destruct (Hcount i s Hi) as (Hcur & Hrange & Hmax).
      assert (Hwf : wf_Server s).
      { unfold wf_Server, Int64.in_range, Int64.min_int, Int64.max_int in *. lia. }
      pose proof (not_skipped_below_capacity s Hwf Hs ltac:(lia)) as Hbelow.
      unfold accounted, in_flight_at in *. simpl. split_and!.
      * intros j s' Hj. destruct (decide (i = j)) as [<-|Hne].
        -- rewrite list_lookup_alter_eq, Hi in Hj. injection Hj as <-. simpl.
           rewrite AddInt64_succ
             by (unfold wf_Server, Int64.in_range, Int64.min_int, Int64.max_int in *; lia).
           destruct (Nat.eq_dec i i); [|done]. lia.
        -- rewrite list_lookup_alter_ne in Hj by done.
           destruct (Nat.eq_dec i j); [done|]. by apply Hcount.
      * intros j [->|Hj]%elem_of_cons; rewrite length_alter.
        -- by apply lookup_lt_Some in Hi.
        -- by apply Hvalid.
      * rewrite Htotal. unfold Int64.AddInt64. rewrite wrap64_add. f_equal. lia.
    + rewrite (ServeHTTP_enter_None w Hsel). by unfold accounted, in_flight_at in *.
  - (* a request ends *)
    destruct (fl !! k) as [i|] eqn:Hk; [|by unfold accounted, in_flight_at in *].
    unfold ServeHTTP_leave, mbind, Go_bind, atomic_AddInt64_CurrentActiveConnections,
      atomic_AddInt64_TotalActiveConnections, emit, with_Servers. simpl.
    assert (Hin : i ∈ fl) by (by apply (list_elem_of_lookup_2 _ k)).
    unfold accounted, in_flight_at in *. simpl. split_and!.
    + intros j s' Hj. pose proof (count_occ_delete fl k i j Hk) as Hdel.
      destruct (decide (i = j)) as [<-|Hne].
      * rewrite list_lookup_alter_eq in Hj.
        destruct (Servers (balancer w) !! i) as [s|] eqn:Hi; [|done].
        injection Hj as <-. simpl. destruct (Hcount i s Hi) as (Hcur & Hrange & Hmax).
        rewrite AddInt64_pred by (unfold Int64.in_range, Int64.min_int, Int64.max_int in *; lia).
        lia.
      * rewrite list_lookup_alter_ne in Hj by done.
        destruct (Hcount j s' Hj) as (Hcur & Hrange & Hmax). lia.
    + intros j Hj%list_elem_of_delete_inv. rewrite length_alter. by apply Hvalid.
    + rewrite Htotal. unfold Int64.AddInt64. rewrite wrap64_add. f_equal.
      rewrite length_delete by eauto. apply lookup_lt_Some in Hk. lia.
  - (* the monitor does a cycle *)
    destruct (healthCheck_cycle_imap results w) as (w' & -> & Hs & Ha & _). simpl.
    unfold accounted, in_flight_at in *. simpl. split_and!.
    + intros j s' Hj. rewrite Hs, list_lookup_imap in Hj.
      destruct (Servers (balancer w) !! j) as [s|] eqn:Hj'; [|done].
      injection Hj as <-. simpl. by apply Hcount.
    + intros j Hj. rewrite Hs, length_imap. by apply Hvalid.
    + by rewrite Ha.
Qed.

Lemma moves_accounted mvs : forall t, accounted t -> accounted (moves mvs t).
Proof.
  unfold moves. induction mvs as [|mv mvs IH]; intros t Ht; simpl; [done|].
  apply IH. by apply move_accounted.
Qed.

End InFlight.

(** X12: from a balancer whose servers have positive capacities and no
    connection, after any sequence of arrivals of requests, ends of requests
    in flight and monitor cycles, every server holds exactly as many
    connections as requests are in flight at it, never more than its
    capacity, and the total of active connections is the number of requests
    in flight (reduced to 64 bits); when no request is in flight, all are
    zero.  An arrival is the handler up to its proxy call, run without
    another request in between. *)
Theorem in_flight_within_capacity lb mvs :
  fresh lb ->
  let t := moves mvs (idle lb) in
  (forall i s, Servers (balancer (board t)) !! i = Some s ->
     CurrentActiveConnections s = in_flight_at i t /\
     0 <= CurrentActiveConnections s <= MaximumActiveConnections s) /\
  TotalActiveConnections (balancer (board t)) =
    Int64.wrap64 (Z.of_nat (length (in_flight t))) /\
  (in_flight t = [] ->
     TotalActiveConnections (balancer (board t)) = 0 /\
     Forall (fun s => CurrentActiveConnections s = 0) (Servers (balancer (board t)))).
Proof.
  intros Hfresh t.
  pose proof (moves_accounted mvs (idle lb) (fresh_accounted lb Hfresh)) as Hacc.
  fold t in Hacc. destruct Hacc as (Hcount & _ & Htotal). split_and!.
  - intros i s Hi. destruct (Hcount i s Hi) as (? & ? & _). done.
  - done.
  - intros Hempty. split.
    + rewrite Htotal, Hempty. reflexivity.
    + apply Forall_lookup. intros i s Hi. destruct (Hcount i s Hi) as (-> & _).
      unfold in_flight_at. by rewrite Hempty.
Qed.

Lemma in_flight_within_capacity_scenario_A :
  let t := moves [Arrive; Arrive; Leave 1; Probe (fun _ => GetResponse 200); Arrive]
                 (idle scenario_A) in
  (forall i s, Servers (balancer (board t)) !! i = Some s ->
     CurrentActiveConnections s = in_flight_at i t /\
     0 <= CurrentActiveConnections s <= MaximumActiveConnections s) /\
  TotalActiveConnections (balancer (board t)) =
    Int64.wrap64 (Z.of_nat (length (in_flight t))) /\
  (in_flight t = [] ->
     TotalActiveConnections (balancer (board t)) = 0 /\
     Forall (fun s => CurrentActiveConnections s = 0) (Servers (balancer (board t)))).
Proof.
  apply (in_flight_within_capacity scenario_A
           [Arrive; Arrive; Leave 1; Probe (fun _ => GetResponse 200); Arrive]).
  unfold fresh, Int64.max_int. simpl. split; [|done].
  repeat (apply Forall_cons_2; [simpl; lia|]). apply Forall_nil_2.
Defined.

(** ** Startup and the proxies *)

Lemma setupReversProxies_same_load parse lb :
  Forall2 same_load (Servers lb) (Servers (setupReversProxies parse lb)).
Proof.
  unfold setupReversProxies, with_Servers. simpl.
  induction (Servers lb) as [|s l IH]; simpl; constructor; [by repeat split | done].
Qed.

Lemma setupReversProxies_selectServer parse lb :
  selectServer (setupReversProxies parse lb) = selectServer lb.
Proof.
  unfold selectServer. symmetry.
  apply (selectServer_loop_same_load _ _ (setupReversProxies_same_load parse lb));
    [done|]. by intros j o o' [=].
Qed.

(** X13: [setupReversProxies] gives every server a proxy for the parse of
    its address and changes nothing else; done twice it gives the same as
    done once, and it does not change what [selectServer] returns. *)
Theorem setupReversProxies_effect parse lb :
  Servers (setupReversProxies parse lb) =
    (fun s => set_ReverseProxy (Some (NewSingleHostReverseProxy (parse (URL s)))) s)
      <$> Servers lb /\
  TotalActiveConnections (setupReversProxies parse lb) = TotalActiveConnections lb /\
  TotalRequests (setupReversProxies parse lb) = TotalRequests lb /\
  setupReversProxies parse (setupReversProxies parse lb) = setupReversProxies parse lb /\
  selectServer (setupReversProxies parse lb) = selectServer lb.
Proof.
  split_and!; try reflexivity; [|apply setupReversProxies_selectServer].
  unfold setupReversProxies, with_Servers. simpl. f_equal.
  rewrite map_map. by apply map_ext.
Qed.

Lemma decode_int64_range m z : decode_int64 m = Some z -> Int64.in_range z.
Proof.
  unfold decode_int64, Int64.in_rangeb, Int64.in_range. destruct m as [z'|].
  - destruct (_ && _) eqn:Hb; [|done]. intros [= <-].
    apply andb_true_iff in Hb as [?%Z.leb_le ?%Z.leb_le]. done.
  - intros [= <-]. unfold Int64.min_int, Int64.max_int. lia.
Qed.

Lemma decode_Server_wf d s : decode_Server d = Some s -> wf_Server s /\ Status s = false.
Proof.
  unfold decode_Server.
  destruct (decode_int64 (json_Id d)) as [i|]; simpl; [|done].
  destruct (decode_int64 (json_MaximumActiveConnections d)) as [m|] eqn:Hm; simpl; [|done].
  destruct (decode_int64 (json_CurrentActiveConnections d)) as [c|] eqn:Hc; simpl; [|done].
  destruct (json_Status d); simpl; [done|]. intros [= <-].
  split; [|done]. split; simpl; by eapply decode_int64_range.
Qed.

(** X14: a balancer that [main] starts to serve holds 64-bit values, every
    server has a proxy and a false flag; so [selectServer] returns none on
    it, and a request before the first probes have stored their flags is
    answered 503. *)
Theorem main_serves_unhealthy env lb :
  main env = Serving lb ->
  wf_LoadBalancer lb /\
  Forall (fun s => Status s = false /\
                   ReverseProxy s = Some (NewSingleHostReverseProxy (url_Parse env (URL s))))
         (Servers lb) /\
  selectServer lb = None /\
  forall f, trace (snd (ServeHTTP f (start lb))) = [AddTotalRequests 1; HttpError 503].
Proof.
  unfold main. destruct (servers_file env) as [[|j]|]; try done.
  destruct (json_Unmarshal j) as [lb0|] eqn:Hdec; [|done].
  destruct (listen_error env); [done|]. intros [= <-].
  unfold json_Unmarshal in Hdec.
  destruct (mapM decode_Server (default [] (json_Servers j))) as [servers|] eqn:Hservers;
    simpl in Hdec; [|done].
  destruct (decode_int64 (json_TotalActiveConnections j)) as [a|] eqn:Ha;
    simpl in Hdec; [|done].
  destruct (decode_int64 (json_TotalRequests j)) as [r|] eqn:Hr; simpl in Hdec; [|done].
  injection Hdec as <-.
  apply mapM_Some_1 in Hservers.
  assert (Hall : Forall (fun s => wf_Server s /\ Status s = false) servers).
  { induction Hservers as [|d s ds ss Hd _ IH]; constructor; [|done].
    by apply decode_Server_wf in Hd. }
  clear Hservers.
  assert (Hnone : selectServer
            (setupReversProxies (url_Parse env)
               {| Servers := servers; TotalActiveConnections := a; TotalRequests := r |})
          = None).
  { rewrite setupReversProxies_selectServer. apply selectServer_None. simpl.
    eapply Forall_impl; [exact Hall|]. intros s [_ Hs]. unfold skipped. by rewrite Hs. }
  split_and!.
  - unfold wf_LoadBalancer, setupReversProxies, with_Servers. simpl. split_and!.
    + apply Forall_map. eapply Forall_impl; [exact Hall|]. by intros s [Hwf _].
    + by eapply decode_int64_range.
    + by eapply decode_int64_range.
  - unfold setupReversProxies, with_Servers. simpl. apply Forall_map.
    eapply Forall_impl; [exact Hall|]. by intros s [_ Hs].
  - done.
  - intros f. by rewrite (ServeHTTP_None f (start _) Hnone).
Qed.

Lemma main_serves_unhealthy_unchecked :
  wf_LoadBalancer
    (setupReversProxies (fun address => Some address)
       (registry [{| Id := 1; MaximumActiveConnections := 0; CurrentActiveConnections := 0;
                     Status := false; URL := "http://localhost:9001";
                     ReverseProxy := None |}])) /\
  Forall (fun s => Status s = false /\
                   ReverseProxy s = Some (NewSingleHostReverseProxy (Some (URL s))))
    (Servers
       (setupReversProxies (fun address => Some address)
          (registry [{| Id := 1; MaximumActiveConnections := 0;
                        CurrentActiveConnections := 0;
                        Status := false; URL := "http://localhost:9001";
                        ReverseProxy := None |}]))) /\
  selectServer
    (setupReversProxies (fun address => Some address)
       (registry [{| Id := 1; MaximumActiveConnections := 0; CurrentActiveConnections := 0;
                     Status := false; URL := "http://localhost:9001";
                     ReverseProxy := None |}])) = None /\
  forall f,
    trace (snd (ServeHTTP f
      (start (setupReversProxies (fun address => Some address)
         (registry [{| Id := 1; MaximumActiveConnections := 0;
                       CurrentActiveConnections := 0;
                       Status := false; URL := "http://localhost:9001";
                       ReverseProxy := None |}]))))) =
    [AddTotalRequests 1; HttpError 503].
Proof.
  apply (main_serves_unhealthy (serving_environment unchecked_servers)). reflexivity.
Defined.

(** The handler panics in the call of the proxy only. *)
Lemma ServeHTTP_Panicked f w i s :
  selectServer (balancer w) = Some i -> Servers (balancer w) !! i = Some s ->
  fst (ServeHTTP f w) = Panicked <->
  f = Aborted \/ ReverseProxy s = None \/ ReverseProxy s = Some {| proxy_target := None |}.
Proof.
  intros Hsel Hi. rewrite ServeHTTP_halves, (ServeHTTP_enter_Some w i Hsel).
  unfold defer, ReverseProxy_ServeHTTP. cbn [balancer Servers].
  rewrite list_lookup_alter_eq, Hi. cbn [fmap option_fmap option_map].
  destruct s as [id_ maximum current status address [[[target|]]|]];
    cbn [set_CurrentActiveConnections ReverseProxy]; [destruct f|..]; cbn.
  all: try (split; [done | intros [?|[?|?]]; done]).
  all: try (split; [intros _|done]).
  all: try (by left). all: try (by right; left). all: try (by right; right).
Qed.

(** X15: after [setupReversProxies], a request for which a backend is chosen
    ends in a panic exactly when the proxy aborts or the address of that
    backend did not parse: the error of [url.Parse] is dropped at startup and
    shows as a panic of every request sent to the backend. *)
Theorem ServeHTTP_panics_iff parse lb f i s :
  selectServer lb = Some i -> Servers lb !! i = Some s ->
  fst (ServeHTTP f (start (setupReversProxies parse lb))) = Panicked <->
  f = Aborted \/ parse (URL s) = None.
Proof.
  intros Hsel Hi.
  rewrite (ServeHTTP_Panicked f (start (setupReversProxies parse lb)) i
             (set_ReverseProxy (Some (NewSingleHostReverseProxy (parse (URL s)))) s)).
  - simpl. unfold NewSingleHostReverseProxy. split.
    + intros [Hf|[Hn|Hn]]; [by left | done | right; congruence].
    + intros [Hf|Hp]; [by left | right; right; by rewrite Hp].
  - simpl. by rewrite setupReversProxies_selectServer.
  - unfold setupReversProxies, with_Servers. simpl.
    change (map ?f ?l) with (f <$> l). by rewrite list_lookup_fmap, Hi.
Qed.

Lemma ServeHTTP_panics_iff_scenario_A :
  fst (ServeHTTP (Relayed 200)
         (start (setupReversProxies (fun _ => None) scenario_A))) = Panicked <->
  Relayed 200 = Aborted \/ (None : option string) = None.
Proof.
  apply (ServeHTTP_panics_iff (fun _ => None) scenario_A (Relayed 200) 0
           (backend 1 5 0 true "http://localhost:9001")); reflexivity.
Defined.

(** Capacities below [2 ^ 53] stay so. *)
Lemma move_capacities mv t :
  Forall (fun s => MaximumActiveConnections s < 2 ^ 53) (Servers (balancer (board t))) ->
  Forall (fun s => MaximumActiveConnections s < 2 ^ 53)
    (Servers (balancer (board (move mv t)))).
Proof.
  intros Hcap. destruct t as [w fl]. destruct mv as [|k|results]; cbn [move board in_flight] in *.
  - destruct (selectServer (balancer w)) as [i|] eqn:Hsel.
    + rewrite (ServeHTTP_enter_Some w i Hsel). simpl.
      apply Forall_alter; [done|]. by intros s.
    + by rewrite (ServeHTTP_enter_None w Hsel).
  - destruct (fl !! k) as [i|]; [|done]. simpl.
    apply Forall_alter; [done|]. by intros s.
  - destruct (healthCheck_cycle_imap results w) as (w' & -> & Hs & _). simpl.
    rewrite Hs. apply Forall_lookup. intros j s' Hj. rewrite list_lookup_imap in Hj.
    destruct (Servers (balancer w) !! j) as [s|] eqn:Hj'; [|done].
    injection Hj as <-. simpl. by apply (Forall_lookup_1 _ _ _ _ Hcap Hj').
Qed.

Lemma moves_capacities mvs : forall t,
  Forall (fun s => MaximumActiveConnections s < 2 ^ 53) (Servers (balancer (board t))) ->
  Forall (fun s => MaximumActiveConnections s < 2 ^ 53)
    (Servers (balancer (board (moves mvs t)))).
Proof.
  unfold moves. induction mvs as [|mv mvs IH]; intros t Ht; simpl; [done|].
  apply IH. by apply move_capacities.
Qed.

(** X16: from a balancer whose servers have no connection and positive
    capacities below [2 ^ 53], after any sequence of arrivals, ends and
    monitor cycles, [selectServer] returns none exactly when every server is
    unhealthy or holds as many connections as its capacity: a request is
    refused only when no healthy server has a free slot. *)
Theorem refused_iff_no_free_slot lb mvs :
  fresh lb ->
  Forall (fun s => MaximumActiveConnections s < 2 ^ 53) (Servers lb) ->
  let t := moves mvs (idle lb) in
  selectServer (balancer (board t)) = None <->
  Forall (fun s => Status s = false \/
                   CurrentActiveConnections s = MaximumActiveConnections s)
         (Servers (balancer (board t))).
Proof.
  intros Hfresh Hcap t.
  pose proof (moves_accounted mvs (idle lb) (fresh_accounted lb Hfresh)) as (Hcount & _).
  pose proof (moves_capacities mvs (idle lb) Hcap) as Hcap'. fold t in Hcount, Hcap'.
  rewrite selectServer_None, !Forall_lookup. split; intros Hall i s Hi.
  - destruct (Hcount i s Hi) as (_ & Hrange & Hmax).
    pose proof (Forall_lookup_1 _ _ _ _ Hcap' Hi) as Hlt. cbv beta in Hlt.
    specialize (Hall i s Hi). cbv beta in Hall.
    apply (skipped_iff s) in Hall as [?|?]; [by left | right; lia | lia | lia].
  - destruct (Hcount i s Hi) as (_ & Hrange & Hmax).
    pose proof (Forall_lookup_1 _ _ _ _ Hcap' Hi) as Hlt. cbv beta in Hlt.
    apply (skipped_iff s); [lia | lia |]. destruct (Hall i s Hi) as [?|?]; [by left | right; lia].
Qed.

Lemma refused_iff_no_free_slot_scenario_A :
  let t := moves [Arrive; Arrive; Arrive] (idle scenario_A) in
  selectServer (balancer (board t)) = None <->
  Forall (fun s => Status s = false \/
                   CurrentActiveConnections s = MaximumActiveConnections s)
         (Servers (balancer (board t))).
Proof.
  apply (refused_iff_no_free_slot scenario_A [Arrive; Arrive; Arrive]).
  - unfold fresh, Int64.max_int. simpl. split; [|done].
    repeat (apply Forall_cons_2; [simpl; lia|]). apply Forall_nil_2.
  - repeat (apply Forall_cons_2; [simpl; lia|]). apply Forall_nil_2.
Defined.

(** ** The pause of the monitor *)

(** X17: for a number of seconds between 1 and 9223372036 the pause of the
    monitor is that many seconds and its ticker starts; for a number between
    -9223372036 and 0 the pause is not positive and [healthCheck] panics
    when it makes its ticker. *)
Theorem healthCheck_ticker_panics_iff (seconds : Z) :
  -9223372036 <= seconds <= 9223372036 ->
  healthPause seconds = seconds * 1000000000 /\
  (healthCheck_ticker (healthPause seconds) = Panicked <-> seconds <= 0).
Proof.
  intros Hrange.
  assert (Hpause : healthPause seconds = seconds * 1000000000).
  { unfold healthPause, time_Second. apply wrap64_in_range.
    unfold Int64.in_range, Int64.min_int, Int64.max_int. lia. }
  split; [done|]. rewrite Hpause. unfold healthCheck_ticker.
  destruct (Z.leb_spec (seconds * 1000000000) 0); split; try done; lia.
Qed.

Lemma healthCheck_ticker_panics_iff_default :
  healthPause 120 = 120 * 1000000000 /\
  (healthCheck_ticker (healthPause 120) = Panicked <-> 120 <= 0).
Proof. apply (healthCheck_ticker_panics_iff 120). lia. Defined.
